(** * Commit triage of the release scripts (tasks/release/releaseLib.mjs)

    A shallow embedding of the commit-triage pipeline: the triage cache
    ([setupData], [purgeData]), the line parser ([parseCommit]), the
    classifier ([mungeCommits]) and the symmetric-difference fetcher
    ([getSymmetricDifference]), with the properties the specification
    states about them.

    JavaScript strings are embedded as [string]; a character stands for a
    code unit below 256.  A thrown exception is the [Throw] case of
    [Result]. *)

From Stdlib Require Import String Ascii List Bool Arith NArith Lia.
From Stdlib Require Import DecimalString Permutation.
Import ListNotations.

Open Scope string_scope.
Open Scope list_scope.

(** ** Exceptions *)

Inductive Error : Type :=
| TypeError      (* property access or destructuring of null / undefined *)
| SyntaxError    (* JSON.parse *)
| ENOENT         (* fs.readFileSync on a missing file *)
| ProcessOutput. (* zx: the command exited with a non-zero status *)

Inductive Result (A : Type) : Type :=
| Ok (a : A)
| Throw (e : Error).

Arguments Ok {A} a.
Arguments Throw {A} e.

Definition bind {A B : Type} (r : Result A) (k : A -> Result B) : Result B :=
  match r with
  | Ok a => k a
  | Throw e => Throw e
  end.

Notation "'do' x <- r ; k" := (bind r (fun x => k))
  (at level 10, x pattern, r at level 100, k at level 200).

(** [for (const x of xs) { body }] over a snapshot [xs], threading the
    mutated object; the first exception leaves the loop. *)
Fixpoint forOf {A S : Type} (body : S -> A -> Result S) (xs : list A) (s : S)
  : Result S :=
  match xs with
  | [] => Ok s
  | x :: xs' => do s' <- body s x; forOf body xs' s'
  end.

(** ** The JavaScript [Map] with string keys

    Entries are kept in insertion order, as [Map.prototype.keys] and
    [Map.prototype.entries] enumerate them.  A [Map] never holds a key
    twice: [wf]. *)

Module JSMap.
Section WithValue.
Context {V : Type}.

Definition t : Type := list (string * V).

Definition keys (m : t) : list string := map fst m.
Definition entries (m : t) : list (string * V) := m.

Fixpoint get (m : t) (k : string) : option V :=
  match m with
  | [] => None
  | (k', v) :: m' => if String.eqb k' k then Some v else get m' k
  end.

Definition has (m : t) (k : string) : bool :=
  match get m k with Some _ => true | None => false end.

Fixpoint set (m : t) (k : string) (v : V) : t :=
  match m with
  | [] => [(k, v)]
  | (k', v') :: m' =>
      if String.eqb k' k then (k', v) :: m' else (k', v') :: set m' k v
  end.

Definition delete (m : t) (k : string) : t :=
  filter (fun kv => negb (String.eqb (fst kv) k)) m.

Definition clear (_ : t) : t := [].

(** [new Map(iterable)] *)
Definition of_entries (l : list (string * V)) : t :=
  fold_left (fun m kv => set m (fst kv) (snd kv)) l [].

Definition wf (m : t) : Prop := NoDup (keys m).

(** [for (const k of m.keys()) { body }] where the body may delete entries
    of [m]: the iterator is live, a key deleted before its turn is not
    visited.  [todo] are the keys the iterator has not reached yet. *)
Fixpoint forKeys (body : t -> string -> t) (todo : list string) (m : t) : t :=
  match todo with
  | [] => m
  | k :: todo' =>
      if has m k then forKeys body todo' (body m k) else forKeys body todo' m
  end.
End WithValue.
Arguments t V : clear implicits.
End JSMap.

(** ** Records *)

(** [commit.type] *)
Inductive CommitType : Type := commit_t | ui_t | chore_t | tag_t.

(** What [chalk] did to a line: the style and the text it wraps. *)
Inductive Style : Type :=
| plain
| dim
| dim_blue
| dim_hex (color : string).

Record Pretty : Type := mkPretty { style : Style; text : string }.

(** The object [mungeCommits] builds per line.  [hash], [message] and [pr]
    are only assigned for a line that is not graph decoration, and [pr] only
    when the message names a pull request. *)
Record Commit : Type := mkCommit {
  line : string;
  ref : string;
  type : CommitType;
  pretty : Pretty;
  hash : option string;
  message : option string;
  pr : option string
}.

(** The value [triageCommits] stores per hash. *)
Record Entry : Type := mkEntry {
  entry_message : string;
  needsCherryPick : bool
}.

(** ** purgeData *)

(** [hash === dataHash] where [hash] may be undefined. *)
Definition hash_is (h : option string) (k : string) : bool :=
  match h with
  | Some h' => String.eqb h' k
  | None => false
  end.

(** [commitHashes.includes(dataHash)] *)
Definition includes (hs : list (option string)) (k : string) : bool :=
  existsb (fun h => hash_is h k) hs.

(** [commits.find((commit) => commit.hash === hash)] *)
Definition find_commit (commits : list Commit) (k : string) : option Commit :=
  find (fun c => hash_is (hash c) k) commits.

(** The first loop of [purgeData]. *)
Definition purgeData_stale (data : JSMap.t Entry) (commits : list Commit)
  : JSMap.t Entry :=
  let commitHashes := map hash commits in
  JSMap.forKeys
    (fun data dataHash =>
       if negb (includes commitHashes dataHash)
       then JSMap.delete data dataHash
       else data)
    (JSMap.keys data) data.

Definition purgeData (data : JSMap.t Entry) (commits : list Commit)
    (branch : string) : Result (JSMap.t Entry) :=
  let data := purgeData_stale data commits in
  let needsCherryPick_ :=
    filter (fun kv => needsCherryPick (snd kv)) (JSMap.entries data) in
  forOf
    (fun data kv =>
       match find_commit commits (fst kv) with
       | None => Throw TypeError (* commit.ref of undefined *)
       | Some commit =>
           if String.eqb (ref commit) branch
           then Ok (JSMap.delete data (fst kv))
           else Ok data
       end)
    needsCherryPick_ data.

(** The commit found for [k] sits on [branch]: its cherry pick has landed. *)
Definition landed (commits : list Commit) (branch : string) (k : string)
  : bool :=
  match find_commit commits k with
  | Some c => String.eqb (ref c) branch
  | None => false
  end.

(** Some entry of [l] under key [k] asks for a cherry pick that has landed. *)
Definition settled (commits : list Commit) (branch : string)
    (l : list (string * Entry)) (k : string) : bool :=
  existsb
    (fun kv => String.eqb (fst kv) k && needsCherryPick (snd kv)
               && landed commits branch (fst kv))
    l.

(** ** Strings *)

Definition LF : ascii := "010"%char.
Definition CR : ascii := "013"%char.

Definition between (lo hi : nat) (c : ascii) : bool :=
  Nat.leb lo (nat_of_ascii c) && Nat.leb (nat_of_ascii c) hi.

(** [\d] *)
Definition isDigit (c : ascii) : bool := between 48 57 c.

(** [\w]: letters, digits and the underscore *)
Definition isWordChar (c : ascii) : bool :=
  isDigit c || between 65 90 c || between 97 122 c || Ascii.eqb c "_".

(** The characters a regular expression's [.] does not match. *)
Definition isLineTerminator (c : ascii) : bool :=
  Ascii.eqb c LF || Ascii.eqb c CR.

(** [\s], and what [trim] strips: tab, line feed, vertical tab, form feed,
    carriage return, space, no-break space. *)
Definition isWhiteSpace (c : ascii) : bool :=
  between 9 13 c || Ascii.eqb c " " || Nat.eqb (nat_of_ascii c) 160.

(** [s.startsWith(p)] *)
Fixpoint startsWith (s p : string) {struct p} : bool :=
  match p with
  | EmptyString => true
  | String a p' =>
      match s with
      | String b s' => Ascii.eqb a b && startsWith s' p'
      | EmptyString => false
      end
  end.

(** [s.slice(n)] for [n >= 0] *)
Fixpoint slice (s : string) (n : nat) {struct n} : string :=
  match n, s with
  | 0, _ => s
  | S n', String _ s' => slice s' n'
  | S _, EmptyString => EmptyString
  end.

(** [s.includes(sub)] *)
Fixpoint str_includes (s sub : string) : bool :=
  startsWith s sub ||
  match s with
  | EmptyString => false
  | String _ s' => str_includes s' sub
  end.

(** [s.replace(pat, rep)] with a string pattern: only the first occurrence of
    [pat] is replaced.  ([rep] holds no [$], so it is inserted as it is.) *)
Fixpoint replace (s pat rep : string) : string :=
  if startsWith s pat then (rep ++ slice s (String.length pat))%string
  else match s with
       | EmptyString => EmptyString
       | String c s' => String c (replace s' pat rep)
       end.

Fixpoint trimStart (s : string) : string :=
  match s with
  | String c s' => if isWhiteSpace c then trimStart s' else s
  | EmptyString => EmptyString
  end.

Fixpoint trimEnd (s : string) : string :=
  match s with
  | String c s' =>
      match trimEnd s' with
      | EmptyString => if isWhiteSpace c then EmptyString else String c EmptyString
      | t => String c t
      end
  | EmptyString => EmptyString
  end.

(** [s.trim()] *)
Definition trim (s : string) : string := trimEnd (trimStart s).

(** [s.split(sep)] for a separator of one character: the pieces between the
    separators; a string without separator, the empty one too, is one piece. *)
Fixpoint split (s : string) (sep : ascii) : list string :=
  match s with
  | EmptyString => [EmptyString]
  | String c s' =>
      if Ascii.eqb c sep then EmptyString :: split s' sep
      else match split s' sep with
           | piece :: pieces => String c piece :: pieces
           | [] => [String c EmptyString]
           end
  end.

(** ** Regular expressions

    [search m s] is [s.match(re)] for a pattern without the [g] flag: [m]
    matches the pattern at the start of a string, and the result is the
    first index at which it matches, with what it captured. *)
Fixpoint search {A : Type} (m : string -> option A) (s : string)
  : option (nat * A) :=
  match m s with
  | Some a => Some (0, a)
  | None =>
      match s with
      | EmptyString => None
      | String _ s' =>
          match search m s' with
          | Some (i, a) => Some (S i, a)
          | None => None
          end
      end
  end.

(** [cls{n}] at the start of [s]: the [n] characters and what follows. *)
Fixpoint times (cls : ascii -> bool) (n : nat) (s : string)
  : option (string * string) :=
  match n, s with
  | 0, _ => Some (EmptyString, s)
  | S n', String c s' =>
      if cls c then
        match times cls n' s' with
        | Some (m, rest) => Some (String c m, rest)
        | None => None
        end
      else None
  | S _, EmptyString => None
  end.

(** [cls*] at the start of [s], greedy. *)
Fixpoint many (cls : ascii -> bool) (s : string) : string :=
  match s with
  | String c s' => if cls c then String c (many cls s') else EmptyString
  | EmptyString => EmptyString
  end.

(** [/\w{9}/], the hash of [parseCommit] *)
Definition WORD9 (s : string) : option string :=
  option_map fst (times isWordChar 9 s).

(** [HASH = /\s(?<hash>\w{40})\s/]; the result is the group [hash]. *)
Definition HASH (s : string) : option string :=
  match s with
  | String c s' =>
      if isWhiteSpace c then
        match times isWordChar 40 s' with
        | Some (h, String c' _) => if isWhiteSpace c' then Some h else None
        | _ => None
        end
      else None
  | EmptyString => None
  end.

(** [PR = /#(?<pr>\d+)/]; the result is the group [pr]. *)
Definition PR (s : string) : option string :=
  match s with
  | String "#" s' =>
      match many isDigit s' with
      | EmptyString => None
      | ds => Some ds
      end
  | _ => None
  end.

(** [message.match(PR)?.groups.pr] *)
Definition pr_of (message : string) : option string :=
  option_map snd (search PR message).

(** [ANNOTATED_TAG_MESSAGE = /^v\d.\d.\d$/] and its [test]: the dots are not
    escaped, each stands for any one character but a line terminator. *)
Definition ANNOTATED_TAG_MESSAGE (s : string) : bool :=
  match s with
  | String "v" (String d1 (String x1 (String d2 (String x2 (String d3 EmptyString))))) =>
      isDigit d1 && negb (isLineTerminator x1) && isDigit d2
      && negb (isLineTerminator x2) && isDigit d3
  | _ => false
  end.

(** Any characters but line terminators, then [suffix], at the start of [s] *)
Fixpoint any_then (suffix : string) (s : string) : bool :=
  startsWith s suffix ||
  match s with
  | String c s' => negb (isLineTerminator c) && any_then suffix s'
  | EmptyString => false
  end.

(** The pattern of [isCommitChore] at the start of [s]: [Merge branch ],
    a group [branch] of any characters but line terminators, [ into next]. *)
Definition MERGE (s : string) : option unit :=
  if startsWith s "Merge branch "
  then if any_then " into next" (slice s 13) then Some tt else None
  else None.

Definition test {A : Type} (m : string -> option A) (s : string) : bool :=
  match search m s with Some _ => true | None => false end.

(** ** parseCommit *)

Record ParsedCommit : Type := mkParsed {
  p_hash : string;
  p_message : string;
  p_pr : option string
}.

Definition parseCommit (commit : string) : Result ParsedCommit :=
  match search WORD9 commit with
  | None => Throw TypeError (* const [hash] = null *)
  | Some (index, hash) =>
      let message := slice commit (index + 10) in
      let pr := pr_of message in
      Ok (mkParsed hash message pr)
  end.

(** ** sanitizeMessage *)

Definition sanitizeMessage (message : string) : string :=
  let message := replace message "[" "\[" in
  let message := replace message "]" "\]" in
  message.

(** ** isLineUI, isCommitChore *)

Definition MARKS : list string := ["o"; " /"; "|\"; "| o"; "|\|"].

Definition isLineUI (line : string) : bool :=
  existsb (fun mark => startsWith line mark) MARKS.

Definition isCommitChore (line : string) : bool :=
  test MERGE line
  || str_includes line "chore: update yarn.lock"
  || str_includes line "Version docs"
  || str_includes line "chore: update all contributors".

Definition isYes (res : string) : bool :=
  existsb (String.eqb res) [""; "Y"; "y"].

(** ** The command runner

    [$] of zx runs a command and resolves with its standard output, or
    throws when the command exits with a non-zero status.  The computations
    that run commands keep the list of the commands run so far. *)

Inductive Command : Type :=
| git_log (options : list string) (leftRef rightRef : string)
    (* git log ${options} ${leftRef}...${rightRef} *)
| git_log_subject (hash : string)
    (* git log --format=%s -n 1 ${hash} *)
| git_log_grep (ref message : string).
    (* git log ${ref} --oneline --grep ${message} *)

Definition Runner : Type := Command -> Result string.

Definition Shell (A : Type) : Type :=
  list Command -> Result (A * list Command).

Definition ret {A : Type} (a : A) : Shell A := fun ran => Ok (a, ran).

Definition throw {A : Type} (e : Error) : Shell A := fun _ => Throw e.

Definition sbind {A B : Type} (m : Shell A) (k : A -> Shell B) : Shell B :=
  fun ran =>
    match m ran with
    | Ok (a, ran') => k a ran'
    | Throw e => Throw e
    end.

Notation "x <- m ;; k" := (sbind m (fun x => k))
  (at level 10, m at level 100, k at level 200).

Definition exec (run : Runner) (cmd : Command) : Shell string :=
  fun ran =>
    match run cmd with
    | Ok stdout => Ok (stdout, ran ++ [cmd])
    | Throw e => Throw e
    end.

(** [for (const x of xs) { body }] in [Shell] *)
Fixpoint forOfS {A S : Type} (body : S -> A -> Shell S) (xs : list A) (s : S)
  : Shell S :=
  match xs with
  | [] => ret s
  | x :: xs' => s' <- body s x ;; forOfS body xs' s'
  end.

(** ** getSymmetricDifference, isCommitInRef, getCommitMessage *)

Definition getSymmetricDifference (run : Runner) (leftRef rightRef : string)
    (options : list string) : Shell (list string) :=
  stdout <- exec run (git_log options leftRef rightRef) ;;
  ret (split (trim stdout) LF).

Definition isCommitInRef (run : Runner) (ref message : string) : Shell bool :=
  stdout <- exec run (git_log_grep ref message) ;;
  ret (negb (String.eqb (trim stdout) "")).

Definition getCommitMessage (run : Runner) (hash : string) : Shell string :=
  stdout <- exec run (git_log_subject hash) ;;
  ret (trim stdout).

Definition sharedGitLogOptions : list string :=
  ["--oneline"; "--no-abbrev-commit"; "--left-right"; "--graph"].

(** ** mungeCommits *)

(** [this.to] is a ref or an array of refs. *)
Inductive Refs : Type :=
| one_ref (ref : string)
| ref_array (refs : list string).

(** The [this] of [mungeCommits.call]. *)
Record This : Type := mkThis {
  from : string;
  to : Refs;
  refsToColors : option (list (string * string))
}.

(** [Array.isArray(this.to) ? this.to : [this.to]] *)
Definition to_array (to : Refs) : list string :=
  match to with
  | one_ref ref => [ref]
  | ref_array refs => refs
  end.

(** [this.refsToColors?.[ref] ? chalk.dim.hex(this.refsToColors[ref]) : chalk.dim.blue]
    (the empty string is falsy) *)
Definition prettyFn (this : This) (ref : string) : Style :=
  match refsToColors this with
  | Some colors =>
      match JSMap.get colors ref with
      | Some EmptyString | None => dim_blue
      | Some color => dim_hex color
      end
  | None => dim_blue
  end.

Definition with_type (c : Commit) (t : CommitType) (p : Pretty) : Commit :=
  mkCommit (line c) (ref c) t p (hash c) (message c) (pr c).

Definition with_ref (c : Commit) (r : string) (p : Pretty) : Commit :=
  mkCommit (line c) r (type c) p (hash c) (message c) (pr c).

Definition with_message (c : Commit) (h m : string) (p : option string)
  : Commit :=
  mkCommit (line c) (ref c) (type c) (pretty c) (Some h) (Some m) p.

(** The loop over [this.to]: every ref is asked, and each ref that holds the
    message overwrites [commit.ref] and [commit.pretty]. *)
Definition scanRefs (run : Runner) (this : This) (message : string)
    (refs : list string) (commit : Commit) : Shell Commit :=
  forOfS
    (fun commit ref =>
       let prettyFn := prettyFn this ref in
       found <- isCommitInRef run ref (sanitizeMessage message) ;;
       if found
       then ret (with_ref commit ref (mkPretty prettyFn (line commit)))
       else ret commit)
    refs commit.

(** The body of the loop over [stdout]: the commit built for [line], and
    [this], whose [to] the body may turn into an array. *)
Definition mungeLine (run : Runner) (this : This) (line : string)
  : Shell (Commit * This) :=
  let commit :=
    mkCommit line (from this) commit_t (mkPretty plain line) None None None in
  if isLineUI line then
    ret (with_type commit ui_t (mkPretty dim line), this)
  else
    match search HASH line with
    | None => throw TypeError (* line.match(HASH).groups of null *)
    | Some (_, hash) =>
        message <- getCommitMessage run hash ;;
        let commit := with_message commit hash message (pr_of message) in
        if isCommitChore line then
          ret (with_type commit chore_t (mkPretty dim line), this)
        else if ANNOTATED_TAG_MESSAGE message then
          ret (with_type (with_ref commit message (pretty commit)) tag_t
                 (mkPretty dim line), this)
        else
          let this := mkThis (from this) (ref_array (to_array (to this)))
                        (refsToColors this) in
          commit <- scanRefs run this message (to_array (to this)) commit ;;
          ret (commit, this)
    end.

(** One turn of the loop: [commits.push(commit)] and the body. *)
Definition mungeStep (run : Runner) (acc : list Commit * This) (line : string)
  : Shell (list Commit * This) :=
  r <- mungeLine run (snd acc) line ;;
  ret (fst acc ++ [fst r], snd r).

Definition mungeCommits (run : Runner) (this : This) (stdout : list string)
  : Shell (list Commit * This) :=
  forOfS (mungeStep run) stdout ([], this).

(** ** The triage-next handler, from the fetch to the test for equal branches *)

(** [stdout.length === 1 && stdout[0] === ''] *)
Definition sameBranches (stdout : list string) : bool :=
  Nat.eqb (List.length stdout) 1
  && match nth_error stdout 0 with
     | Some s => String.eqb s ""
     | None => false
     end.

Inductive Fetched : Type :=
| the_same (data : JSMap.t Entry)     (* data.clear(); return *)
| to_munge (stdout : list string).

Definition handler_fetch (run : Runner) (releaseBranch : string)
    (data : JSMap.t Entry) : Shell Fetched :=
  stdout <- getSymmetricDifference run "next" releaseBranch
              (sharedGitLogOptions ++ ["--left-only"; "--cherry-pick"; "--boundary"]) ;;
  if sameBranches stdout
  then ret (the_same (JSMap.clear data))
  else ret (to_munge stdout).

(** ** The specification's words *)

(** [s] starts with [n] word characters. *)
Fixpoint word_run (n : nat) (s : string) : bool :=
  match n, s with
  | 0, _ => true
  | S n', String c s' => isWordChar c && word_run n' s'
  | S _, EmptyString => false
  end.

(** "A hash-shaped token": a run of 9 word characters, at some index of the
    line. *)
Definition has_hash_token (s : string) : bool :=
  existsb (fun i => word_run 9 (slice s i)) (seq 0 (S (String.length s))).

(** A non-empty decimal number at the start of [s]: what follows it. *)
Definition number (s : string) : option string :=
  match many isDigit s with
  | EmptyString => None
  | ds => Some (slice s (String.length ds))
  end.

(** "The annotated release-tag pattern [v<major>.<minor>.<patch>] exactly":
    [v] and three decimal numbers separated by dots. *)
Definition release_tag (s : string) : bool :=
  match s with
  | String "v" s1 =>
      match number s1 with
      | Some (String "." s2) =>
          match number s2 with
          | Some (String "." s3) =>
              match number s3 with
              | Some EmptyString => true
              | _ => false
              end
          | _ => false
          end
      | _ => false
      end
  | _ => false
  end.

(** "Escapes [[] and []]": a backslash before every square bracket. *)
Fixpoint escape_brackets (s : string) : string :=
  match s with
  | EmptyString => EmptyString
  | String c s' =>
      if Ascii.eqb c "[" || Ascii.eqb c "]"
      then String "\" (String c (escape_brackets s'))
      else String c (escape_brackets s')
  end.

(** How often the character [c] occurs in [s]. *)
Fixpoint occurrences (c : ascii) (s : string) : nat :=
  match s with
  | EmptyString => 0
  | String c' s' => (if Ascii.eqb c' c then 1 else 0) + occurrences c s'
  end.

(** "The last matching ref in iteration order." *)
Definition last_match (p : string -> bool) (refs : list string)
  : option string :=
  match rev (filter p refs) with
  | ref :: _ => Some ref
  | [] => None
  end.

(** [isCommitInRef(ref, sanitizeMessage(message))] when the command succeeds. *)
Definition holds (run : Runner) (message ref : string) : bool :=
  match run (git_log_grep ref (sanitizeMessage message)) with
  | Ok stdout => negb (String.eqb (trim stdout) "")
  | Throw _ => false
  end.

(** ** JSON values and JavaScript objects

    A number is kept as the text of its literal: the cache holds strings
    and booleans only. *)

#[local] Unset Elimination Schemes.

Inductive JSON : Type :=
| JNull
| JBool (b : bool)
| JNumber (literal : string)
| JString (s : string)
| JArray (items : list JSON)
| JObject (props : list (string * JSON)).

#[local] Set Elimination Schemes.

(** The own properties of an object, in the order in which the engine
    enumerates them: the array indices in ascending order, then the other
    keys in the order of their creation. *)
Module JSObject.

Definition t : Type := list (string * JSON).

Fixpoint decimal (s : string) (acc : N) : option N :=
  match s with
  | EmptyString => Some acc
  | String c s' =>
      if isDigit c
      then decimal s' (10 * acc + N.of_nat (nat_of_ascii c - 48))%N
      else None
  end.

(** A key is an array index when it is the canonical decimal text of an
    integer below 2^32 - 1. *)
Definition array_index (k : string) : option N :=
  match k with
  | EmptyString => None
  | String "0" EmptyString => Some 0%N
  | String "0" _ => None
  | _ =>
      if Nat.leb (String.length k) 10 then
        match decimal k 0 with
        | Some n => if (n <? 4294967295)%N then Some n else None
        | None => None
        end
      else None
  end.

(** A new array index goes before the first key that is a larger index or
    no index. *)
Fixpoint insert_index (n : N) (k : string) (v : JSON) (o : t) : t :=
  match o with
  | [] => [(k, v)]
  | (k', v') :: o' =>
      match array_index k' with
      | Some n' =>
          if (n' <? n)%N then (k', v') :: insert_index n k v o'
          else (k, v) :: o
      | None => (k, v) :: o
      end
  end.

(** CreateDataProperty: an existing key keeps its place and takes the new
    value. *)
Definition define (o : t) (k : string) (v : JSON) : t :=
  if JSMap.has o k then JSMap.set o k v
  else match array_index k with
       | Some n => insert_index n k v o
       | None => o ++ [(k, v)]
       end.

(** [Object.fromEntries(entries)] *)
Definition fromEntries (entries : list (string * JSON)) : t :=
  fold_left (fun o kv => define o (fst kv) (snd kv)) entries [].

End JSObject.

Definition index_key (i : nat) : string :=
  NilEmpty.string_of_uint (Nat.to_uint i).

Fixpoint chars_from (i : nat) (s : string) : list (string * JSON) :=
  match s with
  | EmptyString => []
  | String c s' =>
      (index_key i, JString (String c EmptyString)) :: chars_from (S i) s'
  end.

Fixpoint items_from (i : nat) (items : list JSON) : list (string * JSON) :=
  match items with
  | [] => []
  | v :: items' => (index_key i, v) :: items_from (S i) items'
  end.

(** [Object.entries(value)]: the properties of an object, the elements of an
    array and the characters of a string under their indices, nothing for a
    number or a boolean; [null] has no properties to enumerate. *)
Definition Object_entries (value : JSON) : Result (list (string * JSON)) :=
  match value with
  | JNull => Throw TypeError
  | JBool _ | JNumber _ => Ok []
  | JString s => Ok (chars_from 0 s)
  | JArray items => Ok (items_from 0 items)
  | JObject props => Ok props
  end.

(** ** JSON.stringify(value, null, 2) *)

Definition DQUOTE : ascii := "034"%char.
Definition BACKSLASH : ascii := "092"%char.

Definition hex_digit (n : nat) : ascii :=
  match String.get n "0123456789abcdef" with
  | Some c => c
  | None => "0"%char
  end.

(** One character of QuoteJSONString. *)
Definition quote_char (c : ascii) : string :=
  let n := nat_of_ascii c in
  let escape e := String BACKSLASH (String e EmptyString) in
  match n with
  | 8 => escape "b"%char
  | 9 => escape "t"%char
  | 10 => escape "n"%char
  | 12 => escape "f"%char
  | 13 => escape "r"%char
  | 34 => escape DQUOTE
  | 92 => escape BACKSLASH
  | _ =>
      if Nat.ltb n 32
      then String BACKSLASH
             (String "u" (String "0" (String "0"
                (String (hex_digit (n / 16))
                   (String (hex_digit (n mod 16)) EmptyString)))))
      else String c EmptyString
  end.

Fixpoint quote_chars (s : string) : string :=
  match s with
  | EmptyString => EmptyString
  | String c s' => (quote_char c ++ quote_chars s')%string
  end.

Definition quote (s : string) : string :=
  String DQUOTE (quote_chars s ++ String DQUOTE EmptyString)%string.

Definition NL : string := String LF EmptyString.

(** SerializeJSONProperty with the gap of two spaces; [indent] is the
    indentation of the enclosing value. *)
Fixpoint serialize (indent : string) (v : JSON) : string :=
  match v with
  | JNull => "null"
  | JBool true => "true"
  | JBool false => "false"
  | JNumber literal => literal
  | JString s => quote s
  | JArray [] => "[]"
  | JArray items =>
      let stepback := indent in
      let indent := (indent ++ "  ")%string in
      let partial := map (serialize indent) items in
      ("[" ++ NL ++ indent
           ++ String.concat ("," ++ NL ++ indent) partial
           ++ NL ++ stepback ++ "]")%string
  | JObject [] => "{}"
  | JObject props =>
      let stepback := indent in
      let indent := (indent ++ "  ")%string in
      let partial :=
        map (fun kv =>
               match kv with
               | (k, v') => (quote k ++ ": " ++ serialize indent v')%string
               end) props in
      ("{" ++ NL ++ indent
           ++ String.concat ("," ++ NL ++ indent) partial
           ++ NL ++ stepback ++ "}")%string
  end.

Definition JSON_stringify (value : JSON) : string := serialize "" value.

(** ** JSON.parse *)

Definition isJSONSpace (c : ascii) : bool :=
  Ascii.eqb c " " || Ascii.eqb c "009" || Ascii.eqb c LF || Ascii.eqb c CR.

Fixpoint skip_ws (s : string) : string :=
  match s with
  | String c s' => if isJSONSpace c then skip_ws s' else s
  | EmptyString => EmptyString
  end.

Definition hex_value (c : ascii) : option nat :=
  let n := nat_of_ascii c in
  if between 48 57 c then Some (n - 48)
  else if between 97 102 c then Some (n - 87)
  else if between 65 70 c then Some (n - 55)
  else None.

(** The character an escape of one letter stands for. *)
Definition unescape (e : ascii) : option ascii :=
  match nat_of_ascii e with
  | 34 => Some DQUOTE
  | 92 => Some BACKSLASH
  | 47 => Some "/"%char
  | 98 => Some "008"%char
  | 102 => Some "012"%char
  | 110 => Some LF
  | 114 => Some CR
  | 116 => Some "009"%char
  | _ => None
  end.

(** [\uXXXX]; a code unit above 255 is outside the strings of this
    embedding. *)
Definition unicode (h1 h2 h3 h4 : ascii) : option ascii :=
  match hex_value h1, hex_value h2, hex_value h3, hex_value h4 with
  | Some 0, Some 0, Some a, Some b => Some (ascii_of_nat (16 * a + b))
  | _, _, _, _ => None
  end.

(** The characters of a string literal after its opening quote, and what
    follows the closing quote. *)
Fixpoint scan_string (s : string) : option (string * string) :=
  match s with
  | EmptyString => None
  | String c s' =>
      if Ascii.eqb c DQUOTE then Some (EmptyString, s')
      else if Ascii.eqb c BACKSLASH then
        match s' with
        | EmptyString => None
        | String e s'' =>
            if Ascii.eqb e "u" then
              match s'' with
              | String h1 (String h2 (String h3 (String h4 s3))) =>
                  match unicode h1 h2 h3 h4, scan_string s3 with
                  | Some c', Some (str, rest) => Some (String c' str, rest)
                  | _, _ => None
                  end
              | _ => None
              end
            else
              match unescape e, scan_string s'' with
              | Some c', Some (str, rest) => Some (String c' str, rest)
              | _, _ => None
              end
        end
      else if Nat.ltb (nat_of_ascii c) 32 then None
      else match scan_string s' with
           | Some (str, rest) => Some (String c str, rest)
           | None => None
           end
  end.

(** The literal of a number at the start of [s], and what follows it. *)
Definition scan_number (s : string) : option (string * string) :=
  let sign := if startsWith s "-" then "-" else EmptyString in
  let s1 := slice s (String.length sign) in
  let int :=
    match s1 with
    | String "0" _ => "0"
    | _ => many isDigit s1
    end in
  match int with
  | EmptyString => None
  | _ =>
      let s2 := slice s1 (String.length int) in
      let frac :=
        match s2 with
        | String "." s' =>
            match many isDigit s' with
            | EmptyString => None
            | ds => Some (String "." ds)
            end
        | _ => Some EmptyString
        end in
      match frac with
      | None => None
      | Some frac =>
          let s3 := slice s2 (String.length frac) in
          let exp :=
            match s3 with
            | String e s' =>
                if Ascii.eqb e "e" || Ascii.eqb e "E" then
                  let sg :=
                    match s' with
                    | String "+" _ => "+"
                    | String "-" _ => "-"
                    | _ => EmptyString
                    end in
                  match many isDigit (slice s' (String.length sg)) with
                  | EmptyString => None
                  | ds => Some (String e (sg ++ ds))%string
                  end
                else Some EmptyString
            | EmptyString => Some EmptyString
            end in
          match exp with
          | None => None
          | Some exp =>
              Some ((sign ++ int ++ frac ++ exp)%string,
                    slice s3 (String.length exp))
          end
      end
  end.

Definition scan_word (word : string) (v : JSON) (s : string)
  : option (JSON * string) :=
  if startsWith s word then Some (v, slice s (String.length word)) else None.

(** The first character of [s], if any. *)
Definition starts (s : string) (c : ascii) : bool :=
  match s with
  | String c' _ => Ascii.eqb c' c
  | EmptyString => false
  end.

(** A value at the start of [s] and what follows it; [fuel] bounds the
    depth of the recursion. *)
Fixpoint parse_value (fuel : nat) (s : string) {struct fuel}
  : option (JSON * string) :=
  match fuel with
  | 0 => None
  | S fuel' =>
      if starts s DQUOTE then
        match scan_string (slice s 1) with
        | Some (str, rest) => Some (JString str, rest)
        | None => None
        end
      else if starts s "[" then
        let s1 := skip_ws (slice s 1) in
        if starts s1 "]" then Some (JArray [], slice s1 1)
        else match parse_elements fuel' s1 with
             | Some (items, rest) => Some (JArray items, rest)
             | None => None
             end
      else if starts s "{" then
        let s1 := skip_ws (slice s 1) in
        if starts s1 "}" then Some (JObject [], slice s1 1)
        else match parse_members fuel' s1 [] with
             | Some (props, rest) => Some (JObject props, rest)
             | None => None
             end
      else if starts s "n" then scan_word "null" JNull s
      else if starts s "t" then scan_word "true" (JBool true) s
      else if starts s "f" then scan_word "false" (JBool false) s
      else match scan_number s with
           | Some (literal, rest) => Some (JNumber literal, rest)
           | None => None
           end
  end

with parse_elements (fuel : nat) (s : string) {struct fuel}
  : option (list JSON * string) :=
  match fuel with
  | 0 => None
  | S fuel' =>
      match parse_value fuel' s with
      | Some (v, rest) =>
          let rest := skip_ws rest in
          if starts rest "," then
            match parse_elements fuel' (skip_ws (slice rest 1)) with
            | Some (items, rest') => Some (v :: items, rest')
            | None => None
            end
          else if starts rest "]" then Some ([v], slice rest 1)
          else None
      | None => None
      end
  end

with parse_members (fuel : nat) (s : string) (props : JSObject.t) {struct fuel}
  : option (JSObject.t * string) :=
  match fuel with
  | 0 => None
  | S fuel' =>
      if starts s DQUOTE then
        match scan_string (slice s 1) with
        | Some (k, rest) =>
            let rest := skip_ws rest in
            if starts rest ":" then
              match parse_value fuel' (skip_ws (slice rest 1)) with
              | Some (v, rest) =>
                  let props := JSObject.define props k v in
                  let rest := skip_ws rest in
                  if starts rest "," then
                    parse_members fuel' (skip_ws (slice rest 1)) props
                  else if starts rest "}" then Some (props, slice rest 1)
                  else None
              | None => None
              end
            else None
        | None => None
        end
      else None
  end.

(** [JSON.parse(text)]: one value between white space, or a [SyntaxError]. *)
Definition JSON_parse (text : string) : Result JSON :=
  match parse_value (S (String.length text)) (skip_ws text) with
  | Some (value, rest) =>
      match skip_ws rest with
      | EmptyString => Ok value
      | _ => Throw SyntaxError
      end
  | None => Throw SyntaxError
  end.

(** ** setupData *)

(** The files: the text under each path that exists. *)
Definition Files : Type := string -> option string.

Definition readFileSync (fs : Files) (path : string) : Result string :=
  match fs path with
  | Some text => Ok text
  | None => Throw ENOENT
  end.

Definition writeFileSync (fs : Files) (path text : string) : Files :=
  fun p => if String.eqb p path then Some text else fs p.

(** [try { body } catch { handler }] *)
Definition try_catch {A : Type} (body : Result A) (handler : Result A)
  : Result A :=
  match body with
  | Ok a => Ok a
  | Throw _ => handler
  end.

(** The map [setupData] returns.  The hook it registers is [on_exit]. *)
Definition setupData (fs : Files) (path : string)
  : Result (JSMap.t JSON) :=
  try_catch
    (do dataFile <- (do text <- readFileSync fs path; JSON_parse text);
     do entries <- Object_entries dataFile;
     Ok (JSMap.of_entries entries))
    (Ok (JSMap.of_entries [])).

(** The hook of [process.on('exit', ...)]: it writes the map as it is when
    the process exits. *)
Definition on_exit (path : string) (dataFile : JSMap.t JSON) (fs : Files)
  : Files :=
  writeFileSync fs path
    (JSON_stringify (JObject (JSObject.fromEntries (JSMap.entries dataFile)))).

(** The literal of a boolean. *)
Definition bool_text (b : bool) : string := if b then "true" else "false".

(** The entry [triageCommits] stores, as a JavaScript object. *)
Definition entry_object (e : Entry) : JSON :=
  JObject [("message", JString (entry_message e));
           ("needsCherryPick", JBool (needsCherryPick e))].

Definition cache_objects (data : JSMap.t Entry) : JSMap.t JSON :=
  map (fun kv => (fst kv, entry_object (snd kv))) data.

(** The members of the object [on_exit] writes, from the first key to the
    closing brace, in front of [rest]. *)
Fixpoint members_text (props : list (string * JSON)) (rest : string) : string :=
  match props with
  | [] => rest
  | (k, v) :: props' =>
      (quote k ++ ": " ++ serialize "  " v
         ++ match props' with
            | [] => String LF (String "}" rest)
            | _ => String "," (String LF ("  " ++ members_text props' rest))
            end)%string
  end.

Definition is_entry (v : JSON) : Prop := exists e, v = entry_object e.

(** ** Predicates on strings used in the statements *)

(** Every character of [s] is in the class [cls]. *)
Fixpoint str_forall (cls : ascii -> bool) (s : string) : bool :=
  match s with
  | EmptyString => true
  | String c s' => cls c && str_forall cls s'
  end.

(** The first [n] characters of [s]. *)
Fixpoint take (n : nat) (s : string) : string :=
  match n, s with
  | S n', String c s' => String c (take n' s')
  | _, _ => EmptyString
  end.

(** ** What mungeCommits keeps *)

(** A full hash: 40 word characters. *)
Definition full_hash (h : string) : Prop :=
  String.length h = 40 /\ str_forall isWordChar h = true.

(** What holds of a record [mungeCommits] returns for the context [this]. *)
Definition classified (this : This) (c : Commit) : Prop :=
  text (pretty c) = line c
  /\ (type c = ui_t <-> isLineUI (line c) = true)
  /\ (type c = ui_t -> hash c = None /\ message c = None /\ pr c = None)
  /\ (type c <> ui_t ->
      exists i h m, search HASH (line c) = Some (i, h)
                    /\ hash c = Some h /\ full_hash h
                    /\ message c = Some m /\ pr c = pr_of m)
  /\ (type c = ui_t \/ type c = chore_t ->
      ref c = from this /\ style (pretty c) = dim)
  /\ (type c = chore_t <-> isLineUI (line c) = false
                           /\ isCommitChore (line c) = true)
  /\ (type c = tag_t ->
      message c = Some (ref c) /\ ANNOTATED_TAG_MESSAGE (ref c) = true
      /\ style (pretty c) = dim)
  /\ (type c = commit_t ->
      (ref c = from this /\ style (pretty c) = plain)
      \/ (In (ref c) (to_array (to this))
          /\ style (pretty c) = prettyFn this (ref c))).

(** [this] after the loop: [to] may have become an array of the same refs. *)
Definition same_context (this this' : This) : Prop :=
  from this' = from this
  /\ to_array (to this') = to_array (to this)
  /\ refsToColors this' = refsToColors this.

(** The lines of [stdout] that are not graph decoration. *)
Definition commit_lines (stdout : list string) : list string :=
  filter (fun l => negb (isLineUI l)) stdout.

Definition is_git_log (cmd : Command) : bool :=
  match cmd with
  | git_log _ _ _ => true
  | _ => false
  end.

(** ** triageCommits *)

(** [$`open ${url}`]: the command succeeds or throws. *)
Definition Opener : Type := string -> Result string.

Definition pull_url (pr : string) : string :=
  ("https://github.com/redwoodjs/redwood/pull/" ++ pr)%string.

Definition cherry_pick_url : string :=
  "https://github.com/redwoodjs/redwood/pulls?q=is%3Apr+is%3Aopen+label%3Acherry-pick".

(** How a session of questions ends: every commit had its answer, or the
    answers ran out while [question] was waiting, or a command threw. *)
Inductive Outcome : Type :=
| finished
| waiting
| thrown (e : Error).

(** The cache as the questions left it (it is updated in place), the pages
    opened, and the answers not read. *)
Record Triage : Type := mkTriage {
  t_data : JSMap.t Entry;
  t_opened : list string;
  t_answers : list string;
  t_outcome : Outcome
}.

(** [['open', 'o'].includes(answer)] *)
Definition is_open (answer : string) : bool :=
  existsb (String.eqb answer) ["open"; "o"].

(** The [while (true)] loop for one commit; [answers] are what the user will
    type, one line per question. *)
Fixpoint askCommit (open : Opener) (c : ParsedCommit) (answers : list string)
    (data : JSMap.t Entry) (opened : list string) : Triage :=
  match answers with
  | [] => mkTriage data opened [] waiting
  | answer :: answers' =>
      if is_open answer then
        match p_pr c with
        | None | Some EmptyString =>
            (* There's no PR for this commit *)
            askCommit open c answers' data opened
        | Some pr =>
            match open (pull_url pr) with
            | Ok _ => askCommit open c answers' data (opened ++ [pull_url pr])
            | Throw e => mkTriage data opened answers' (thrown e)
            end
        end
      else
        mkTriage
          (JSMap.set data (p_hash c) (mkEntry (p_message c) (isYes answer)))
          opened answers' finished
  end.

Fixpoint triageCommits (open : Opener) (commits : list ParsedCommit)
    (answers : list string) (data : JSMap.t Entry) (opened : list string)
  : Triage :=
  match commits with
  | [] => mkTriage data opened answers finished
  | c :: commits' =>
      let t := askCommit open c answers data opened in
      match t_outcome t with
      | finished =>
          triageCommits open commits' (t_answers t) (t_data t) (t_opened t)
      | _ => t
      end
  end.

(** The decisions a list of answers holds for a list of commits. *)
Definition decide (data : JSMap.t Entry) (ca : ParsedCommit * string)
  : JSMap.t Entry :=
  JSMap.set data (p_hash (fst ca))
    (mkEntry (p_message (fst ca)) (isYes (snd ca))).

(** ** The handlers of triage-main and triage-next *)

(** [!['ui', 'chore', 'tag'].includes(commit.type)] *)
Definition is_release (c : Commit) : bool :=
  match type c with
  | ui_t | chore_t | tag_t => false
  | commit_t => true
  end.

(** [data.has(hash)] for a hash that may be undefined: no key is. *)
Definition cache_has (data : JSMap.t Entry) (h : option string) : bool :=
  match h with
  | Some k => JSMap.has data k
  | None => false
  end.

(** [releaseCommits.filter(({ hash }) => !data.has(hash))
                   .filter(({ ref }) => ref !== branch)] *)
Definition untriaged (data : JSMap.t Entry) (releaseCommits : list Commit)
    (branch : string) : list Commit :=
  filter (fun c => negb (String.eqb (ref c) branch))
    (filter (fun c => negb (cache_has data (hash c))) releaseCommits).

(** The colours of the listing: what [mungeCommits] gave the line, or one of
    the colours of the legend. *)
Inductive Colour : Type :=
| as_munged (s : Style)
| yellow
| green
| dim_red.

(** [data.get(commit.hash).needsCherryPick] *)
Definition cached_yes (data : JSMap.t Entry) (h : option string) : bool :=
  match h with
  | Some k =>
      match JSMap.get data k with
      | Some e => needsCherryPick e
      | None => false
      end
  | None => false
  end.

(** The line printed for a commit when there is nothing to triage. *)
Definition listing_line (data : JSMap.t Entry) (branch : string) (c : Commit)
  : Colour * string :=
  if is_release c && negb (String.eqb (ref c) branch) then
    if negb (cache_has data (hash c)) then (yellow, line c)
    else if cached_yes data (hash c) then (green, line c)
    else (dim_red, line c)
  else (as_munged (style (pretty c)), text (pretty c)).

Definition listing (data : JSMap.t Entry) (branch : string)
    (commits : list Commit) : list (Colour * string) :=
  map (listing_line data branch) commits.

(** A release commit as [triageCommits] reads it.  Every record of type
    [commit] has its hash and its message. *)
Definition triage_input (commits : list Commit) : list ParsedCommit :=
  flat_map
    (fun c =>
       match hash c, message c with
       | Some h, Some m => [mkParsed h m (pr c)]
       | _, _ => []
       end)
    commits.

(** How a handler ends. *)
Inductive Session : Type :=
| same_branches (data : JSMap.t Entry)
| nothing_new (data : JSMap.t Entry) (lines : list (Colour * string))
| triaged (t : Triage).

Definition lift {A : Type} (r : Result A) : Shell A :=
  fun ran =>
    match r with
    | Ok a => Ok (a, ran)
    | Throw e => Throw e
    end.

(** Both handlers, from [mungeCommits] on.  The handler of triage-main
    opens the list of cherry-pick pull requests before it asks
    ([openCherryPickPRs]); the handler of triage-next does not. *)
Definition triage (run : Runner) (open : Opener) (answers : list string)
    (source branch : string) (openPRs : bool) (data : JSMap.t Entry)
    (stdout : list string) : Shell Session :=
  r <- mungeCommits run (mkThis source (one_ref branch) None) stdout ;;
  let commits := fst r in
  let releaseCommits := filter is_release commits in
  data <- lift (purgeData data releaseCommits branch) ;;
  let releaseCommits := untriaged data releaseCommits branch in
  match releaseCommits with
  | [] => ret (nothing_new data (listing data branch commits))
  | _ =>
      opened <- (if openPRs
                 then lift (do _ <- open cherry_pick_url; Ok [cherry_pick_url])
                 else ret []) ;;
      ret (triaged (triageCommits open (triage_input releaseCommits) answers
                      data opened))
  end.

(** The handler of triage-main, after [setupData] and [updateRemotes]. *)
Definition handler_main (run : Runner) (open : Opener) (answers : list string)
    (data : JSMap.t Entry) : Shell Session :=
  stdout <- getSymmetricDifference run "main" "next"
              (sharedGitLogOptions ++ ["--left-only"; "--cherry-pick"; "--boundary"]) ;;
  triage run open answers "main" "next" true data stdout.

(** The handler of triage-next, after [setupData], [updateRemotes] and
    [getReleaseBranch]. *)
Definition handler_next (run : Runner) (open : Opener) (answers : list string)
    (releaseBranch : string) (data : JSMap.t Entry) : Shell Session :=
  fetched <- handler_fetch run releaseBranch data ;;
  match fetched with
  | the_same data => ret (same_branches data)
  | to_munge stdout =>
      triage run open answers "next" releaseBranch false data stdout
  end.

(** The hash [mungeCommits] reads off a line. *)
Definition line_hash (l : string) : option string :=
  option_map snd (search HASH l).

(** A computation that only appends the commands it runs to those run
    before, and does not depend on them. *)
Definition framed {A : Type} (m : Shell A) : Prop :=
  forall ran,
    m ran = match m [] with
            | Ok (a, cmds) => Ok (a, ran ++ cmds)
            | Throw e => Throw e
            end.

(** ** The validation of branchStrategyCLI.mjs *)

(** The script leaves with an exit code after a message, or goes on to
    parse the commands. *)
Inductive Start : Type :=
| exit (code : nat) (said : string)
| parse_commands.

(** [gitBranch] is the output of [git branch --show-current] and
    [getReleaseBranch] what the function of that name returns, each unless
    it throws. *)
Definition validate (gitBranch getReleaseBranch : Result string)
  : Result Start :=
  do stdout <- gitBranch;
  if negb (String.eqb (trim stdout) "branch-strategy-triage") then
    Ok (exit 1 "Start from branch-strategy-triage")
  else
    do releaseBranch <- getReleaseBranch;
    if Nat.ltb 1 (List.length (split releaseBranch LF)) then
      Ok (exit 1
            ("There's more than one release branch: "
             ++ String.concat ", " (map trim (split releaseBranch LF)))%string)
    else if Nat.eqb (String.length releaseBranch) 0 then
      Ok (exit 1 "There's no release branch")
    else Ok parse_commands.

(** * The plugin babel-plugin-redwood-import-dir *)

(** [[a-zA-Z0-9]] *)
Definition isAlnum (c : ascii) : bool :=
  isDigit c || between 65 90 c || between 97 122 c.

(** The pattern of the extension at the start of [s]: any character but a
    line terminator, then [js] or [ts]; the dot is not escaped. *)
Definition EXT (s : string) : bool :=
  match s with
  | String c (String x (String y _)) =>
      negb (isLineTerminator c)
      && (Ascii.eqb x "j" || Ascii.eqb x "t") && Ascii.eqb y "s"
  | _ => false
  end.

(** [s.replace(EXT, '')]: the first match is removed. *)
Fixpoint strip_ext (s : string) : string :=
  if EXT s then slice s 3
  else match s with
       | EmptyString => EmptyString
       | String c s' => String c (strip_ext s')
       end.

(** [s.replace(/[^a-zA-Z0-9]/g, '_')] *)
Fixpoint underscore (s : string) : string :=
  match s with
  | EmptyString => EmptyString
  | String c s' =>
      String (if isAlnum c then c else "_"%char) (underscore s')
  end.

(** [importGlob.split('*')[0]] *)
Definition staticGlob (importGlob : string) : string :=
  hd EmptyString (split importGlob "*").

Definition filePathToVarName (staticGlob filePath : string) : string :=
  underscore (strip_ext (replace filePath staticGlob "")).

Definition generateTypes (modulePath : string) (typeExports : list string)
  : string :=
  ("declare module '" ++ modulePath ++ "' {" ++ NL
   ++ "    export default {" ++ NL
   ++ "      " ++ String.concat NL typeExports ++ NL
   ++ "    }" ++ NL
   ++ "  }")%string.

(** [import <specifiers> from <source>]; a specifier is its local name. *)
Record ImportDeclaration : Type := mkImport {
  specifiers : list string;
  source : string
}.

(** The statements the plugin builds. *)
Inductive Statement : Type :=
| let_object (name : string)
   (* let <name> = {} *)
| import_namespace (local from_path : string)
   (* import * as <local> from '<from_path>' *)
| assign_member (object property value : string).
   (* <object>.<property> = <value> *)

Section Plugin.

(** [path.parse(filePath)]: its [dir] and its [name]; and [path.join]. *)
Variable path_parse : string -> string * string.
Variable path_join : string -> string -> string.

(** The two statements for one file, and its line of the type declaration. *)
Definition import_file (importName staticGlob filePath : string)
  : list Statement :=
  let (fileDir, fileName) := path_parse filePath in
  let filePathWithoutExtension := (fileDir ++ "/" ++ fileName)%string in
  let fpVarName := filePathToVarName staticGlob filePath in
  [ import_namespace (importName ++ "_" ++ fpVarName)%string
      filePathWithoutExtension;
    assign_member importName fpVarName (importName ++ "_" ++ fpVarName)%string ].

Definition type_export (staticGlob filePath : string) : string :=
  (filePathToVarName staticGlob filePath ++ ": any")%string.

(** The visitor of import declarations.  [matched] is what
    [glob.sync(importGlob, { cwd })] returns, [writes] whether the host has a
    [writeFileSync].  The result is [None] when the declaration is left as
    it is, and else the statements that replace it with the file written, if
    any: its path and its contents. *)
Definition ImportDeclaration_visitor (generateTypesPath : string)
    (writes : bool) (matched : list string) (node : ImportDeclaration)
  : Result (option (list Statement * option (string * string))) :=
  if negb (str_includes (source node) "*") then Ok None
  else
    match specifiers node with
    | [] => Throw TypeError (* specifiers[0].local of undefined *)
    | importName :: _ =>
        let importGlob := source node in
        let dirFiles :=
          filter (fun n => negb (str_includes n ".test.")) matched in
        let staticGlob := staticGlob importGlob in
        let nodes :=
          let_object importName
          :: flat_map (import_file importName staticGlob) dirFiles in
        let typeExports := map (type_export staticGlob) dirFiles in
        Ok (Some
              (nodes,
               if writes
               then Some (path_join generateTypesPath
                            ("import-dir-" ++ importName ++ ".d.ts")%string,
                          generateTypes importGlob typeExports)
               else None))
    end.

End Plugin.

(** The properties the statements assign. *)
Definition assigned (nodes : list Statement) : list string :=
  flat_map
    (fun s => match s with
              | assign_member _ property _ => [property]
              | _ => []
              end)
    nodes.

(** No match of the extension pattern starts inside [name] when [tail]
    follows it. *)
Fixpoint ext_free (name tail : string) : bool :=
  match name with
  | EmptyString => true
  | String c name' =>
      negb (EXT (name ++ tail)%string) && ext_free name' tail
  end.

(** * Example data *)

(** The cache and the commits of the witnesses: one entry whose cherry pick
    has landed on [next], one still waiting on [main], one declined, and one
    whose commit is gone. *)
Definition a_commit (h r : string) : Commit :=
  mkCommit h r commit_t (mkPretty plain h) (Some h) (Some "fix: x") None.

Definition cache0 : JSMap.t Entry :=
  [ ("abc123456", mkEntry "fix: x" true);
    ("def123456", mkEntry "fix: y" true);
    ("123456789", mkEntry "fix: z" false);
    ("fedcba987", mkEntry "old" false) ].

Definition commits0 : list Commit :=
  [ a_commit "abc123456" "next";
    a_commit "def123456" "main";
    a_commit "123456789" "next" ].


(** A repository where nothing differs between the refs. *)
Definition quiet : Runner := fun _ => Ok "".

(** A line of [git log --oneline --no-abbrev-commit --left-right] and
    repositories for it: [repo subject refs] answers the subject query with
    [subject] and finds the message in the refs of [refs]. *)
Definition line0 : string :=
  "< 0bb0f8ce075ea1e0f6a7851d80df2bc7d303e756 chore(deps): update babel (#6779)".

Definition repo (subject : string) (refs : list string) : Runner :=
  fun cmd =>
    match cmd with
    | git_log _ _ _ => Ok line0
    | git_log_subject _ => Ok (String.append subject (String LF EmptyString))
    | git_log_grep ref _ =>
        if existsb (String.eqb ref) refs
        then Ok (String.append "0bb0f8ce0 " subject)
        else Ok ""
    end.

Definition this0 : This :=
  mkThis "release/minor/v3.6.0" (ref_array ["v3.4.1"; "v3.4.2"; "v3.5.0"])
    (Some [("v3.4.1", "#aa0000"); ("v3.4.2", "#00bb00"); ("v3.5.0", "#0000cc")]).

(** Files for [setupData]: nothing under any path, and a cache file that is
    not JSON. *)
Definition no_files : Files := fun _ => None.

Definition broken_file : Files :=
  fun p => if String.eqb p "data/triageMainData.json" then Some "{ bad" else None.

(** Commits to triage and an opener that always succeeds. *)
Definition opens : Opener := fun _ => Ok "".

Definition asked : list ParsedCommit :=
  [ mkParsed "0bb0f8ce075ea1e0f6a7851d80df2bc7d303e756" "fix: x (#42)" (Some "42");
    mkParsed "1cc0f8ce075ea1e0f6a7851d80df2bc7d303e756" "fix: y" None ].

(** A second line for [line0], and repositories whose subjects depend on the
    hash: [two_fixes refs] finds both messages in the refs of [refs]. *)
Definition line1 : string :=
  "< 1cc0f8ce075ea1e0f6a7851d80df2bc7d303e756 fix: y".

Definition two_fixes (refs : list string) : Runner :=
  fun cmd =>
    match cmd with
    | git_log _ _ _ =>
        Ok (String.append line0 (String LF line1))
    | git_log_subject h =>
        if String.eqb h "0bb0f8ce075ea1e0f6a7851d80df2bc7d303e756"
        then Ok "fix: x (#42)" else Ok "fix: y"
    | git_log_grep ref _ =>
        if existsb (String.eqb ref) refs then Ok "0bb0f8ce0 found" else Ok ""
    end.


(** The import of the plugin's test and the files its glob matches, with a
    test file among them; [path.parse] and [path.join] for relative paths
    with a file name such as these. *)
Definition services_import : ImportDeclaration :=
  mkImport ["services"] "../__fixtures__/**/*.{js,ts}".

Definition fixture_files : list string :=
  [ "../__fixtures__/a.js"; "../__fixtures__/a.test.js";
    "../__fixtures__/b.ts"; "../__fixtures__/c.sdl.js";
    "../__fixtures__/nested/d.js" ].

Definition fixture_parse (p : string) : string * string :=
  let pieces := split p "/" in
  let base := last pieces EmptyString in
  (String.concat "/" (removelast pieces),
   match rev (split base ".") with
   | _ :: (_ :: _) as front => String.concat "." (rev front)
   | _ => base
   end).

Definition fixture_join (a b : string) : string :=
  (a ++ "/" ++ b)%string.

(** What the plugin puts in the place of [services_import]. *)
Definition services_statements : list Statement :=
  [ let_object "services";
    import_namespace "services_a" "../__fixtures__/a";
    assign_member "services" "a" "services_a";
    import_namespace "services_b" "../__fixtures__/b";
    assign_member "services" "b" "services_b";
    import_namespace "services_c_sdl" "../__fixtures__/c.sdl";
    assign_member "services" "c_sdl" "services_c_sdl";
    import_namespace "services_nested_d" "../__fixtures__/nested/d";
    assign_member "services" "nested_d" "services_nested_d" ].

Definition services_types : string * string :=
  ("__fixtures__/import-dir/import-dir-services.d.ts",
   generateTypes "../__fixtures__/**/*.{js,ts}"
     ["a: any"; "b: any"; "c_sdl: any"; "nested_d: any"]).

(** * Properties *)

(** ** Lists and maps *)

Lemma filter_filter {A : Type} (p q : A -> bool) (l : list A) :
  filter p (filter q l) = filter (fun x => q x && p x) l.
Proof.
  induction l as [|x l IH]; simpl; [reflexivity|].
  destruct (q x); simpl; [destruct (p x)|]; now rewrite IH.
Qed.

Lemma filter_all {A : Type} (p : A -> bool) (l : list A) :
  (forall x, In x l -> p x = true) -> filter p l = l.
Proof.
  induction l as [|x l IH]; simpl; intros H; [reflexivity|].
  rewrite (H x) by now left. f_equal. apply IH. intros y Hy. apply H. now right.
Qed.

Lemma existsb_filter_true {A : Type} (p q : A -> bool) (l : list A) :
  existsb p (filter q l) = true -> existsb p l = true.
Proof.
  rewrite !existsb_exists. intros [x [Hx Hp]].
  apply filter_In in Hx. exists x. tauto.
Qed.

Module JSMapFacts.
Import JSMap.
Section WithValue.
Context {V : Type}.
Implicit Types (m : JSMap.t V) (k : string) (v : V).

Lemma get_not_in m k : ~ In k (keys m) -> get m k = None.
Proof.
  induction m as [|[k' v'] m IH]; simpl; intros H; [reflexivity|].
  destruct (String.eqb_spec k' k) as [->|_]; [tauto|]. apply IH. tauto.
Qed.

Lemma get_in m k v : get m k = Some v -> In (k, v) m.
Proof.
  induction m as [|[k' v'] m IH]; simpl; [discriminate|].
  destruct (String.eqb_spec k' k) as [->|_].
  - intros [= ->]. now left.
  - intros H. right. now apply IH.
Qed.

Lemma in_get m k v : wf m -> In (k, v) m -> get m k = Some v.
Proof.
  unfold wf. induction m as [|[k' v'] m IH]; simpl; [tauto|].
  intros Hnd [[= -> ->]|Hin].
  - now rewrite String.eqb_refl.
  - inversion Hnd as [|? ? Hk' Hnd']; subst.
    destruct (String.eqb_spec k' k) as [->|_]; [|now apply IH].
    exfalso. apply Hk'. apply (in_map fst) in Hin. exact Hin.
Qed.

Lemma keys_filter_incl (p : string * V -> bool) m k :
  In k (keys (filter p m)) -> In k (keys m).
Proof.
  unfold keys. rewrite !in_map_iff. intros [kv [Hk Hin]].
  apply filter_In in Hin. exists kv. tauto.
Qed.

Lemma wf_filter (p : string * V -> bool) m : wf m -> wf (filter p m).
Proof.
  unfold wf. induction m as [|[k' v'] m IH]; simpl; intros Hnd; [constructor|].
  inversion Hnd as [|? ? Hk' Hnd']; subst.
  destruct (p (k', v')); simpl; [|now apply IH].
  constructor; [|now apply IH].
  intros Hin. apply Hk'. eapply keys_filter_incl, Hin.
Qed.

(** Lookup in a filtered map. *)
Lemma get_filter (p : string * V -> bool) m k :
  wf m ->
  get (filter p m) k =
    match get m k with
    | Some v => if p (k, v) then Some v else None
    | None => None
    end.
Proof.
  unfold wf. induction m as [|[k' v'] m IH]; simpl; intros Hnd; [reflexivity|].
  inversion Hnd as [|? ? Hk' Hnd']; subst.
  destruct (String.eqb_spec k' k) as [->|Hne].
  - destruct (p (k, v')); simpl.
    + now rewrite String.eqb_refl.
    + apply get_not_in. intros Hin. apply Hk'. eapply keys_filter_incl, Hin.
  - destruct (p (k', v')); simpl; [|now apply IH].
    destruct (String.eqb_spec k' k); [contradiction|now apply IH].
Qed.

Lemma wf_delete m k : wf m -> wf (delete m k).
Proof. apply wf_filter. Qed.
Lemma get_None_iff m k : get m k = None <-> ~ In k (keys m).
Proof.
  split; [|apply get_not_in].
  induction m as [|[k' v'] m IH]; simpl; [tauto|].
  destruct (String.eqb_spec k' k) as [->|Hne]; [discriminate|].
  intros H [Heq|Hin]; [contradiction|]. now apply IH.
Qed.

Lemma get_set m k v k' :
  get (set m k v) k' = if String.eqb k k' then Some v else get m k'.
Proof.
  induction m as [|[k0 v0] m IH]; simpl.
  - reflexivity.
  - destruct (String.eqb_spec k0 k) as [->|Hne]; simpl.
    + destruct (String.eqb k k'); reflexivity.
    + rewrite IH. destruct (String.eqb_spec k0 k') as [->|Hne'].
      * destruct (String.eqb_spec k k'); [congruence|reflexivity].
      * reflexivity.
Qed.

Lemma keys_set_has m k v : has m k = true -> keys (set m k v) = keys m.
Proof.
  unfold has. induction m as [|[k0 v0] m IH]; simpl; [discriminate|].
  destruct (String.eqb_spec k0 k) as [->|Hne]; simpl; [reflexivity|].
  intros H. now rewrite IH.
Qed.

Lemma keys_set_new m k v : has m k = false -> keys (set m k v) = keys m ++ [k].
Proof.
  unfold has. induction m as [|[k0 v0] m IH]; simpl; [reflexivity|].
  destruct (String.eqb_spec k0 k) as [->|Hne]; simpl; [discriminate|].
  intros H. now rewrite IH.
Qed.

Lemma has_false m k : has m k = false <-> ~ In k (keys m).
Proof.
  rewrite <- get_None_iff. unfold has.
  destruct (get m k); split; congruence.
Qed.

Lemma wf_set m k v : wf m -> wf (set m k v).
Proof.
  unfold wf. intros Hnd. destruct (has m k) eqn:Hhas.
  - now rewrite keys_set_has.
  - rewrite keys_set_new by assumption.
    apply (Permutation_NoDup (l := k :: keys m)).
    + apply Permutation_cons_append.
    + constructor; [now apply has_false|assumption].
Qed.

Lemma wf_of_entries (l : list (string * V)) : wf (of_entries l).
Proof.
  unfold of_entries.
  assert (H : forall m, wf m ->
                wf (fold_left (fun m kv => set m (fst kv) (snd kv)) l m)).
  { induction l as [|kv l IH]; intros m Hm; simpl; [assumption|].
    apply IH. now apply wf_set. }
  apply H. constructor.
Qed.

(** The last binding of a key in a list of entries decides. *)
Lemma get_fold_set (l : list (string * V)) m k :
  get (fold_left (fun m kv => set m (fst kv) (snd kv)) l m) k
  = match get (rev l) k with
    | Some v => Some v
    | None => get m k
    end.
Proof.
  revert m. induction l as [|[k0 v0] l IH]; intros m; simpl; [reflexivity|].
  rewrite IH, get_set. clear IH.
  induction (rev l) as [|[k1 v1] r IHr]; simpl.
  - destruct (String.eqb k0 k); reflexivity.
  - destruct (String.eqb k1 k); [reflexivity|exact IHr].
Qed.

Lemma wf_rev m : wf m -> wf (rev m).
Proof.
  unfold wf, keys. rewrite map_rev. apply NoDup_rev.
Qed.

Lemma get_rev m k : wf m -> get (rev m) k = get m k.
Proof.
  intros Hwf. destruct (get m k) as [v|] eqn:Hget.
  - apply in_get; [now apply wf_rev|]. apply -> in_rev. now apply get_in.
  - apply get_None_iff. apply get_None_iff in Hget.
    unfold keys in *. rewrite map_rev. intros Hin. apply Hget.
    now apply in_rev.
Qed.

Lemma get_of_entries m k : wf m -> get (of_entries m) k = get m k.
Proof.
  intros Hwf. unfold of_entries. rewrite get_fold_set, get_rev by assumption.
  destruct (get m k); reflexivity.
Qed.

(** Maps with the same lookups hold the same entries. *)
Lemma same_entries (m m' : JSMap.t V) :
  wf m -> wf m' -> (forall k, get m k = get m' k) -> Permutation m m'.
Proof.
  intros Hm Hm' Hget. apply NoDup_Permutation.
  - eapply NoDup_map_inv, Hm.
  - eapply NoDup_map_inv, Hm'.
  - intros [k v]. split; intros Hin.
    + apply get_in. rewrite <- Hget. now apply in_get.
    + apply get_in. rewrite Hget. now apply in_get.
Qed.
End WithValue.
End JSMapFacts.

Create HintDb jsmap.

#[global] Hint Resolve JSMapFacts.wf_filter JSMapFacts.wf_delete
  JSMapFacts.wf_set JSMapFacts.wf_of_entries JSMapFacts.wf_rev : jsmap.

(** ** purgeData *)

Section PurgeData.
Variable commits : list Commit.
Variable branch : string.

Let hashes := map hash commits.

Lemma includes_find k :
  includes hashes k = true -> exists c, find_commit commits k = Some c.
Proof.
  unfold includes, find_commit, hashes.
  induction commits as [|c cs IH]; simpl; [discriminate|].
  destruct (hash_is (hash c) k); simpl; eauto.
Qed.

Lemma find_includes k c :
  find_commit commits k = Some c -> includes hashes k = true.
Proof.
  unfold includes, find_commit, hashes.
  induction commits as [|c' cs IH]; simpl; [discriminate|].
  destruct (hash_is (hash c') k); simpl; auto.
Qed.

Lemma stale_loop (ks : list string) (d : JSMap.t Entry) :
  JSMap.forKeys
    (fun data dataHash =>
       if negb (includes hashes dataHash)
       then JSMap.delete data dataHash else data) ks d
  = filter
      (fun kv => includes hashes (fst kv)
                 || negb (existsb (String.eqb (fst kv)) ks)) d.
Proof.
  revert d. induction ks as [|k ks IH]; intros d; simpl.
  - symmetry. apply filter_all. intros x _. apply orb_true_r.
  - destruct (JSMap.has d k) eqn:Hhas; rewrite IH.
    + destruct (includes hashes k) eqn:Hk; simpl.
      * apply filter_ext. intros [k' v]; simpl.
        destruct (String.eqb_spec k' k) as [->|_]; simpl; [|reflexivity].
        now rewrite Hk.
      * unfold JSMap.delete. rewrite filter_filter.
        apply filter_ext. intros [k' v]; simpl.
        destruct (String.eqb_spec k' k) as [->|_]; simpl; [|reflexivity].
        now rewrite Hk.
    + apply filter_ext_in. intros [k' v] Hin; simpl.
      destruct (String.eqb_spec k' k) as [->|_]; simpl; [|reflexivity].
      exfalso. apply JSMapFacts.has_false in Hhas. apply Hhas.
      apply (in_map fst) in Hin. exact Hin.
Qed.

(** The first loop keeps exactly the entries whose hash is a commit's. *)
Lemma purgeData_stale_filter (data : JSMap.t Entry) :
  purgeData_stale data commits
  = filter (fun kv => includes hashes (fst kv)) data.
Proof.
  unfold purgeData_stale. fold hashes. rewrite stale_loop.
  apply filter_ext_in. intros [k v] Hin; simpl.
  replace (existsb (String.eqb k) (JSMap.keys data)) with true.
  - apply orb_false_r.
  - symmetry. apply existsb_exists. exists k. split.
    + apply (in_map fst) in Hin. exact Hin.
    + apply String.eqb_refl.
Qed.

Lemma landed_loop (l : list (string * Entry)) (d : JSMap.t Entry) :
  (forall kv, In kv l -> includes hashes (fst kv) = true) ->
  forOf
    (fun data kv =>
       match find_commit commits (fst kv) with
       | None => Throw TypeError
       | Some commit =>
           if String.eqb (ref commit) branch
           then Ok (JSMap.delete data (fst kv)) else Ok data
       end) l d
  = Ok (filter
          (fun kv =>
             negb (existsb
                     (fun kv' => String.eqb (fst kv') (fst kv) && landed commits branch (fst kv'))
                     l)) d).
Proof.
  revert d. induction l as [|[k e] l IH]; intros d Hl; simpl.
  - f_equal. symmetry. now apply filter_all.
  - destruct (includes_find k) as [c Hc]; [apply (Hl (k, e)); now left|].
    unfold landed at 1. rewrite Hc.
    destruct (String.eqb (ref c) branch); simpl.
    + rewrite IH by (intros; apply Hl; now right).
      unfold JSMap.delete. rewrite filter_filter. f_equal.
      apply filter_ext. intros [k' v]; simpl.
      rewrite (String.eqb_sym k k').
      destruct (String.eqb k' k); simpl; reflexivity.
    + rewrite IH by (intros; apply Hl; now right).
      f_equal. apply filter_ext. intros [k' v]; simpl.
      now rewrite andb_false_r.
Qed.

(** What [purgeData] leaves: the entries that are neither stale nor
    settled, in their order. *)
Lemma purgeData_filter (data : JSMap.t Entry) :
  purgeData data commits branch
  = Ok (filter
          (fun kv => includes hashes (fst kv) && negb (settled commits branch data (fst kv)))
          data).
Proof.
  unfold purgeData. rewrite purgeData_stale_filter. unfold JSMap.entries.
  rewrite landed_loop.
  - rewrite filter_filter. f_equal. apply filter_ext_in.
    intros [k v] _; simpl. destruct (includes hashes k) eqn:Hk; simpl; [|reflexivity].
    f_equal. unfold settled. rewrite filter_filter.
    induction data as [|[k' e'] data' IH]; simpl; [reflexivity|].
    destruct (String.eqb_spec k' k) as [->|Hne]; simpl.
    + rewrite Hk; simpl.
      destruct (needsCherryPick e'); simpl; rewrite ?String.eqb_refl; simpl;
        now rewrite IH.
    + destruct (includes hashes k' && needsCherryPick e'); simpl; [|exact IH].
      destruct (String.eqb_spec k' k); [contradiction|]. exact IH.
  - intros kv Hin. apply filter_In in Hin. destruct Hin as [Hin _].
    apply filter_In in Hin. tauto.
Qed.

Lemma settled_get (data : JSMap.t Entry) (k : string) :
  JSMap.wf data ->
  settled commits branch data k =
    match JSMap.get data k with
    | Some e => needsCherryPick e && landed commits branch k
    | None => false
    end.
Proof.
  unfold JSMap.wf, settled.
  induction data as [|[k' e'] data' IH]; simpl; intros Hnd; [reflexivity|].
  inversion Hnd as [|? ? Hk' Hnd']; subst.
  destruct (String.eqb_spec k' k) as [->|Hne]; simpl; [|now apply IH].
  rewrite IH by assumption. rewrite JSMapFacts.get_not_in by assumption.
  apply orb_false_r.
Qed.
End PurgeData.

(** C1. [purgeData] prunes the cache: after the call (a) no entry is left
    whose hash is not the hash of one of the given commits, (b) no entry is
    left that had [needsCherryPick = true] and whose commit record (the one
    [commits.find] returns for the hash) has [ref] equal to the target branch,
    and (c) every other entry is still there with the value it had.  Nothing
    is added. *)
Theorem purgeData_prunes (data : JSMap.t Entry) (commits : list Commit)
    (branch : string) :
  JSMap.wf data ->
  exists data',
    purgeData data commits branch = Ok data'
    /\ (forall k, includes (map hash commits) k = false ->
                  JSMap.get data' k = None)
    /\ (forall k e c,
          JSMap.get data k = Some e -> needsCherryPick e = true ->
          find_commit commits k = Some c -> ref c = branch ->
          JSMap.get data' k = None)
    /\ (forall k e,
          JSMap.get data k = Some e ->
          includes (map hash commits) k = true ->
          ~ (needsCherryPick e = true
             /\ exists c, find_commit commits k = Some c /\ ref c = branch) ->
          JSMap.get data' k = Some e)
    /\ (forall k, JSMap.get data k = None -> JSMap.get data' k = None).
Proof.
  intros Hwf. eexists. split; [apply purgeData_filter|].
  repeat split.
  - intros k Hk. rewrite JSMapFacts.get_filter by assumption.
    destruct (JSMap.get data k); simpl; [|reflexivity]. now rewrite Hk.
  - intros k e c Hget Hn Hc Href.
    rewrite JSMapFacts.get_filter, Hget by assumption. simpl.
    rewrite settled_get, Hget, Hn by assumption. unfold landed. rewrite Hc, Href.
    rewrite String.eqb_refl. simpl. now rewrite andb_false_r.
  - intros k e Hget Hk Hnot.
    rewrite JSMapFacts.get_filter, Hget by assumption. simpl.
    rewrite settled_get, Hget, Hk by assumption. simpl.
    destruct (needsCherryPick e) eqn:Hn; simpl; [|reflexivity].
    unfold landed. destruct (find_commit commits k) as [c|] eqn:Hc; [|reflexivity].
    destruct (String.eqb_spec (ref c) branch) as [Href|_]; [|reflexivity].
    exfalso. apply Hnot. split; [reflexivity|]. now exists c.
  - intros k Hget. rewrite JSMapFacts.get_filter, Hget by assumption. reflexivity.
Qed.

Lemma cache0_wf : JSMap.wf cache0.
Proof.
  unfold JSMap.wf, cache0; simpl.
  repeat (constructor; [simpl; intuition discriminate|]). constructor.
Defined.

Lemma purgeData_prunes_witness :
  exists data',
    purgeData cache0 commits0 "next" = Ok data'
    /\ (forall k, includes (map hash commits0) k = false ->
                  JSMap.get data' k = None)
    /\ (forall k e c,
          JSMap.get cache0 k = Some e -> needsCherryPick e = true ->
          find_commit commits0 k = Some c -> ref c = "next" ->
          JSMap.get data' k = None)
    /\ (forall k e,
          JSMap.get cache0 k = Some e ->
          includes (map hash commits0) k = true ->
          ~ (needsCherryPick e = true
             /\ exists c, find_commit commits0 k = Some c /\ ref c = "next") ->
          JSMap.get data' k = Some e)
    /\ (forall k, JSMap.get cache0 k = None -> JSMap.get data' k = None).
Proof. apply (purgeData_prunes cache0 commits0 "next"). exact cache0_wf. Defined.

(** Scenario B of the specification, and the run on [cache0]. *)
Example purgeData_scenario_B :
  purgeData [("abc123456", mkEntry "fix: x" true)]
            [a_commit "abc123456" "next"] "next" = Ok [].
Proof. reflexivity. Qed.

Example purgeData_cache0 :
  purgeData cache0 commits0 "next"
  = Ok [("def123456", mkEntry "fix: y" true);
        ("123456789", mkEntry "fix: z" false)].
Proof. reflexivity. Qed.

(** C6. Running [purgeData] a second time with the same commits and target
    branch leaves the cache as the first run left it. *)
Theorem purgeData_idempotent (data : JSMap.t Entry) (commits : list Commit)
    (branch : string) :
  exists data',
    purgeData data commits branch = Ok data'
    /\ purgeData data' commits branch = Ok data'.
Proof.
  eexists. split; [apply purgeData_filter|].
  rewrite purgeData_filter. apply f_equal. apply filter_all.
  intros [k e] Hin. apply filter_In in Hin. destruct Hin as [_ Hkeep]. simpl in *.
  apply andb_true_iff in Hkeep. destruct Hkeep as [Hk Hs]. rewrite Hk. simpl.
  apply negb_true_iff in Hs. apply negb_true_iff.
  destruct (settled commits branch (filter _ data) k) eqn:Hs'; [|reflexivity].
  apply existsb_filter_true in Hs'. unfold settled in Hs. congruence.
Qed.

(** C10. [purgeData] never throws.  Every entry that survives the first loop
    has the hash of some commit, so for each surviving entry with
    [needsCherryPick = true] the second loop's [commits.find] returns a commit
    record and reading its [ref] cannot fail. *)
Theorem purgeData_safe (data : JSMap.t Entry) (commits : list Commit)
    (branch : string) :
  Forall
    (fun kv => exists c, find_commit commits (fst kv) = Some c)
    (filter (fun kv => needsCherryPick (snd kv))
            (JSMap.entries (purgeData_stale data commits)))
  /\ exists data', purgeData data commits branch = Ok data'.
Proof.
  split.
  - apply Forall_forall. intros kv Hin. apply includes_find.
    apply filter_In in Hin. destruct Hin as [Hin _].
    unfold JSMap.entries in Hin. rewrite purgeData_stale_filter in Hin.
    apply filter_In in Hin. tauto.
  - eexists. apply purgeData_filter.
Qed.

(** ** parseCommit *)

Lemma times_word_run (n : nat) (s : string) :
  times isWordChar n s = None <-> word_run n s = false.
Proof.
  revert s. induction n as [|n IH]; intros s; simpl.
  - split; discriminate.
  - destruct s as [|c s]; [tauto|].
    destruct (isWordChar c); simpl; [|tauto].
    rewrite <- IH. destruct (times isWordChar n s) as [[m rest]|]; split;
      (discriminate || reflexivity).
Qed.

Lemma WORD9_word_run (s : string) : WORD9 s = None <-> word_run 9 s = false.
Proof.
  unfold WORD9. rewrite <- times_word_run.
  destruct (times isWordChar 9 s); simpl; split; (discriminate || reflexivity).
Qed.

Lemma existsb_seq_S (f : nat -> bool) (n : nat) :
  existsb f (seq 1 n) = existsb (fun i => f (S i)) (seq 0 n).
Proof.
  rewrite <- seq_shift. induction (seq 0 n) as [|i l IH]; simpl; [reflexivity|].
  now rewrite IH.
Qed.

Lemma has_hash_token_cons (c : ascii) (s : string) :
  has_hash_token (String c s) = word_run 9 (String c s) || has_hash_token s.
Proof.
  unfold has_hash_token.
  change (seq 0 (S (String.length (String c s))))
    with (0 :: seq 1 (S (String.length s))).
  cbn [existsb]. rewrite existsb_seq_S. reflexivity.
Qed.

(** The pattern of [parseCommit] finds a match exactly in the lines that hold
    a hash-shaped token. *)
Lemma search_WORD9_None (s : string) :
  search WORD9 s = None <-> has_hash_token s = false.
Proof.
  induction s as [|c s IH].
  - split; reflexivity.
  - rewrite has_hash_token_cons, orb_false_iff, <- IH, <- WORD9_word_run.
    cbn [search].
    destruct (WORD9 (String c s)); [split; [discriminate|intros [? _]; discriminate]|].
    destruct (search WORD9 s) as [[i a]|]; split; try tauto; try discriminate.
    intros [_ ?]; discriminate.
Qed.

(** C3 (amended). On a line that holds no hash-shaped token (no run of 9 word
    characters) [parseCommit] throws a [TypeError]: it has no null result. *)
Theorem parseCommit_no_hash (commit : string) :
  has_hash_token commit = false -> parseCommit commit = Throw TypeError.
Proof.
  intros H. apply search_WORD9_None in H. unfold parseCommit. now rewrite H.
Qed.

Lemma parseCommit_no_hash_witness :
  has_hash_token "| |" = false /\ parseCommit "| |" = Throw TypeError.
Proof.
  split; [reflexivity|]. apply (parseCommit_no_hash "| |"). reflexivity.
Defined.

(** C3, as the specification states it, fails: a graph line without hash makes
    [parseCommit] throw. *)
Lemma parseCommit_no_hash_counterexample :
  has_hash_token "|\  " = false
  /\ ~ (exists r, parseCommit "|\  " = Ok r)
  /\ parseCommit "|\  " = Throw TypeError.
Proof.
  split; [reflexivity|]. split; [|reflexivity].
  intros [r Hr]. discriminate Hr.
Qed.

(** On every other line [parseCommit] returns a record. *)
Lemma parseCommit_hash (commit : string) :
  has_hash_token commit = true -> exists r, parseCommit commit = Ok r.
Proof.
  intros H. unfold parseCommit.
  destruct (search WORD9 commit) as [[i h]|] eqn:Hs; [eauto|].
  apply search_WORD9_None in Hs. congruence.
Qed.

Example parseCommit_scenario :
  parseCommit "abc123456 fix: notes formatting (#42)"
  = Ok (mkParsed "abc123456" "fix: notes formatting (#42)" (Some "42")).
Proof. reflexivity. Qed.

(** ** sanitizeMessage *)

(** C8 (fails on the code). [String.prototype.replace] with a string pattern
    replaces the first occurrence only: of two pairs of square brackets
    [sanitizeMessage] escapes the first pair and leaves the second. *)
Theorem sanitizeMessage_first_only :
  sanitizeMessage "fix: x [skip ci] [v2]" = "fix: x \[skip ci\] [v2]"
  /\ escape_brackets "fix: x [skip ci] [v2]" = "fix: x \[skip ci\] \[v2\]"
  /\ sanitizeMessage "fix: x [skip ci] [v2]"
     <> escape_brackets "fix: x [skip ci] [v2]".
Proof. repeat split. discriminate. Qed.

(** With at most one opening and at most one closing bracket in the message
    the first occurrence is the only one, and every bracket is escaped. *)
Lemma replace_char (c p : ascii) (s rep : string) :
  replace (String c s) (String p EmptyString) rep
  = if Ascii.eqb p c then (rep ++ s)%string
    else String c (replace s (String p EmptyString) rep).
Proof. simpl. destruct (Ascii.eqb p c); reflexivity. Qed.

Lemma escape_no_brackets (s : string) :
  occurrences "[" s = 0 -> occurrences "]" s = 0 -> escape_brackets s = s.
Proof.
  induction s as [|c s IH]; simpl; [reflexivity|].
  destruct (Ascii.eqb c "["); [discriminate|].
  destruct (Ascii.eqb c "]"); [discriminate|]. simpl.
  intros H1 H2. now rewrite IH.
Qed.

Lemma replace_one_bracket (b other : ascii) (s : string) :
  (b = "[" /\ other = "]" \/ b = "]" /\ other = "[")%char ->
  occurrences other s = 0 -> occurrences b s <= 1 ->
  replace s (String b EmptyString) (String "\" (String b EmptyString))
  = escape_brackets s.
Proof.
  intros Hb. induction s as [|c s IH]; [reflexivity|].
  rewrite replace_char. cbn [occurrences escape_brackets].
  destruct Hb as [[-> ->]|[-> ->]].
  - rewrite (Ascii.eqb_sym "[" c).
    destruct (Ascii.eqb c "]") eqn:Hc2; [discriminate|].
    destruct (Ascii.eqb c "[") eqn:Hc1; simpl; intros H1 H2.
    + apply Ascii.eqb_eq in Hc1. subst c.
      rewrite escape_no_brackets by lia. reflexivity.
    + now rewrite IH.
  - rewrite (Ascii.eqb_sym "]" c).
    destruct (Ascii.eqb c "[") eqn:Hc1; [discriminate|].
    destruct (Ascii.eqb c "]") eqn:Hc2; simpl; intros H1 H2.
    + apply Ascii.eqb_eq in Hc2. subst c.
      rewrite escape_no_brackets by lia. reflexivity.
    + now rewrite IH.
Qed.

(** X4. A message with at most one opening and at most one closing square
    bracket leaves [sanitizeMessage] with every bracket escaped. *)
Lemma sanitizeMessage_single (message : string) :
  occurrences "[" message <= 1 -> occurrences "]" message <= 1 ->
  sanitizeMessage message = escape_brackets message.
Proof.
  unfold sanitizeMessage. induction message as [|c m IH]; [reflexivity|].
  rewrite replace_char. cbn [occurrences escape_brackets].
  rewrite (Ascii.eqb_sym "[" c).
  destruct (Ascii.eqb c "[") eqn:Hc1.
  - apply Ascii.eqb_eq in Hc1. subst c. simpl. intros H1 H2.
    rewrite (replace_one_bracket "]" "[") by (auto; lia). reflexivity.
  - rewrite replace_char. rewrite (Ascii.eqb_sym "]" c).
    destruct (Ascii.eqb c "]") eqn:Hc2; simpl; intros H1 H2.
    + apply Ascii.eqb_eq in Hc2. subst c.
      rewrite (replace_one_bracket "[" "]") by (auto; lia). reflexivity.
    + now rewrite IH.
Qed.

Lemma sanitizeMessage_single_witness :
  sanitizeMessage "fix(setup-auth): notes formatting [skip ci]"
  = escape_brackets "fix(setup-auth): notes formatting [skip ci]".
Proof.
  apply (sanitizeMessage_single "fix(setup-auth): notes formatting [skip ci]");
    simpl; lia.
Defined.

Example sanitizeMessage_doc :
  sanitizeMessage "fix(setup-auth): notes formatting [skip ci]"
  = "fix(setup-auth): notes formatting \[skip ci\]".
Proof. reflexivity. Qed.

(** Scenario E of the specification. *)
Example isYes_scenario_E : isYes "" = true /\ isYes "n" = false.
Proof. split; reflexivity. Qed.

(** ** getSymmetricDifference *)

Lemma sameBranches_iff (stdout : list string) :
  sameBranches stdout = true <-> stdout = [""].
Proof.
  unfold sameBranches. destruct stdout as [|s [|s' l]]; simpl.
  - split; discriminate.
  - destruct (String.eqb_spec s ""); split; congruence.
  - split; discriminate.
Qed.

(** C7. When the log command prints nothing, [getSymmetricDifference] returns
    the list of one element, the empty string, not the empty list; the test of
    the triage-next handler for equal branches holds of that list and of no
    other, and the handler then clears the cache. *)
Theorem getSymmetricDifference_empty (run : Runner) (leftRef rightRef : string)
    (options : list string) (ran : list Command) :
  run (git_log options leftRef rightRef) = Ok "" ->
  getSymmetricDifference run leftRef rightRef options ran
  = Ok ([""], ran ++ [git_log options leftRef rightRef])
  /\ [""] <> @nil string
  /\ (forall stdout, sameBranches stdout = true <-> stdout = [""])
  /\ (forall data,
        leftRef = "next" ->
        options = sharedGitLogOptions ++ ["--left-only"; "--cherry-pick"; "--boundary"] ->
        handler_fetch run rightRef data ran
        = Ok (the_same [], ran ++ [git_log options leftRef rightRef])).
Proof.
  intros Hrun. repeat split.
  - unfold getSymmetricDifference, sbind, exec. now rewrite Hrun.
  - discriminate.
  - apply sameBranches_iff.
  - apply sameBranches_iff.
  - intros data -> ->. unfold handler_fetch, getSymmetricDifference, sbind, exec.
    now rewrite Hrun.
Qed.

Lemma getSymmetricDifference_empty_witness :
  getSymmetricDifference quiet "next" "release/minor/v3.6.0" [] []
  = Ok ([""], [git_log [] "next" "release/minor/v3.6.0"]).
Proof.
  apply (getSymmetricDifference_empty quiet "next" "release/minor/v3.6.0" [] []).
  reflexivity.
Defined.

(** Output of blank characters only is trimmed to the same list. *)
Lemma getSymmetricDifference_blank (run : Runner) (leftRef rightRef : string)
    (options : list string) (ran : list Command) (stdout : string) :
  run (git_log options leftRef rightRef) = Ok stdout ->
  trim stdout = "" ->
  getSymmetricDifference run leftRef rightRef options ran
  = Ok ([""], ran ++ [git_log options leftRef rightRef]).
Proof.
  intros Hrun Ht. unfold getSymmetricDifference, sbind, exec.
  now rewrite Hrun, Ht.
Qed.

(** ** mungeCommits *)

Lemma last_match_cons (p : string -> bool) (r : string) (refs : list string) :
  last_match p (r :: refs)
  = match last_match p refs with
    | Some r' => Some r'
    | None => if p r then Some r else None
    end.
Proof.
  unfold last_match. simpl. destruct (p r); simpl.
  - destruct (rev (filter p refs)); reflexivity.
  - destruct (rev (filter p refs)); reflexivity.
Qed.

Section Scan.
Variable run : Runner.
Variable this : This.
Variable msg : string.

Let grep (r : string) : Command := git_log_grep r (sanitizeMessage msg).

(** The loop asks every ref, and the last ref that holds the message
    decides [ref] and [pretty]. *)
Lemma scanRefs_last (refs : list string) (c : Commit) (ran : list Command) :
  (forall r, In r refs -> exists out, run (grep r) = Ok out) ->
  scanRefs run this msg refs c ran
  = Ok (match last_match (holds run msg) refs with
        | Some r => with_ref c r (mkPretty (prettyFn this r) (line c))
        | None => c
        end,
        ran ++ map grep refs).
Proof.
  unfold scanRefs, grep. revert c ran.
  induction refs as [|r refs IH]; intros c ran Hok; simpl.
  - unfold ret. now rewrite app_nil_r.
  - destruct (Hok r) as [out Hout]; [now left|].
    rewrite last_match_cons.
    unfold sbind at 1. unfold isCommitInRef, sbind, exec.
    rewrite Hout. unfold holds at 2. rewrite Hout.
    destruct (negb (String.eqb (trim out) "")); unfold ret;
      rewrite IH by (intros; apply Hok; now right);
      rewrite <- app_assoc; simpl;
      destruct (last_match (holds run msg) refs); reflexivity.
Qed.
End Scan.

(** The steps every proof about a line with a hash starts with: the line is
    no graph mark, its hash is found, and the subject query answers. *)
Ltac subject_query Hui Hh Hrun :=
  unfold mungeLine; rewrite Hui, Hh;
  unfold sbind at 1; unfold getCommitMessage, sbind at 1, exec;
  rewrite Hrun; unfold ret at 1.

(** C2 (amended). A line that is neither graph decoration nor a chore, and
    whose commit message matches [ANNOTATED_TAG_MESSAGE] (a [v], a digit, any
    character but a line terminator, a digit, such a character again, a
    digit, and nothing else) gets [type = tag] and the message as its [ref];
    the only command run for it is the subject query, so no destination ref
    is asked. *)
Theorem mungeLine_tag (run : Runner) (this : This) (line : string)
    (ran : list Command) (i : nat) (h out : string) :
  isLineUI line = false ->
  search HASH line = Some (i, h) ->
  run (git_log_subject h) = Ok out ->
  isCommitChore line = false ->
  ANNOTATED_TAG_MESSAGE (trim out) = true ->
  mungeLine run this line ran
  = Ok ((mkCommit line (trim out) tag_t (mkPretty dim line)
           (Some h) (Some (trim out)) (pr_of (trim out)), this),
        ran ++ [git_log_subject h]).
Proof.
  intros Hui Hh Hrun Hchore Htag. subject_query Hui Hh Hrun.
  rewrite Hchore, Htag. reflexivity.
Qed.

Lemma mungeLine_tag_witness :
  mungeLine (repo "v3.5.0" []) this0 line0 []
  = Ok ((mkCommit line0 "v3.5.0" tag_t (mkPretty dim line0)
           (Some "0bb0f8ce075ea1e0f6a7851d80df2bc7d303e756") (Some "v3.5.0")
           None, this0),
        [git_log_subject "0bb0f8ce075ea1e0f6a7851d80df2bc7d303e756"]).
Proof.
  apply (mungeLine_tag (repo "v3.5.0" []) this0 line0 [] 1
           "0bb0f8ce075ea1e0f6a7851d80df2bc7d303e756"
           (String.append "v3.5.0" (String LF EmptyString)));
    reflexivity.
Defined.

(** C2, as the specification states it, fails: [v3.10.0] is a
    [v<major>.<minor>.<patch>] message, and its line stays a [commit] on the
    source ref. *)
Lemma mungeLine_tag_counterexample :
  ~ (forall (run : Runner) (this : This) (line : string) (ran : list Command)
            (i : nat) (h out : string),
        isLineUI line = false ->
        search HASH line = Some (i, h) ->
        run (git_log_subject h) = Ok out ->
        isCommitChore line = false ->
        release_tag (trim out) = true ->
        exists c this' ran',
          mungeLine run this line ran = Ok ((c, this'), ran')
          /\ type c = tag_t /\ ref c = trim out).
Proof.
  intros H.
  destruct (H (repo "v3.10.0" []) this0 line0 [] 1
              "0bb0f8ce075ea1e0f6a7851d80df2bc7d303e756"
              (String.append "v3.10.0" (String LF EmptyString)))
    as (c & this' & ran' & Hm & Ht & _); try reflexivity.
  vm_compute in Hm. injection Hm as <- _ _. discriminate Ht.
Qed.

(** The pattern of the code and the pattern of the specification agree on
    [v3.5.0] and differ on [v3.10.0] and on [v1x2y3]. *)
Example tag_patterns :
  ANNOTATED_TAG_MESSAGE "v3.5.0" = true /\ release_tag "v3.5.0" = true
  /\ ANNOTATED_TAG_MESSAGE "v3.10.0" = false /\ release_tag "v3.10.0" = true
  /\ ANNOTATED_TAG_MESSAGE "v1x2y3" = true /\ release_tag "v1x2y3" = false.
Proof. repeat split. Qed.

(** Releases of one digit per component match both patterns. *)
Lemma number_digit (d : ascii) (rest : string) :
  isDigit d = true -> many isDigit rest = EmptyString ->
  number (String d rest) = Some rest.
Proof.
  intros Hd Hrest. unfold number. cbn [many]. now rewrite Hd, Hrest.
Qed.

Lemma tag_one_digit (major minor patch : ascii) :
  isDigit major = true -> isDigit minor = true -> isDigit patch = true ->
  let message :=
    String "v" (String major (String "." (String minor (String "."
      (String patch EmptyString))))) in
  ANNOTATED_TAG_MESSAGE message = true /\ release_tag message = true.
Proof.
  intros H1 H2 H3. split.
  - cbn. now rewrite H1, H2, H3.
  - cbn [release_tag]. now rewrite !number_digit.
Qed.

(** The other exits of the loop body: graph decoration runs no command, a
    chore only the subject query. *)
Lemma mungeLine_ui (run : Runner) (this : This) (line : string)
    (ran : list Command) :
  isLineUI line = true ->
  mungeLine run this line ran
  = Ok ((mkCommit line (from this) ui_t (mkPretty dim line) None None None,
         this), ran).
Proof. intros Hui. unfold mungeLine. now rewrite Hui. Qed.

Lemma mungeLine_chore (run : Runner) (this : This) (line : string)
    (ran : list Command) (i : nat) (h out : string) :
  isLineUI line = false ->
  search HASH line = Some (i, h) ->
  run (git_log_subject h) = Ok out ->
  isCommitChore line = true ->
  mungeLine run this line ran
  = Ok ((mkCommit line (from this) chore_t (mkPretty dim line)
           (Some h) (Some (trim out)) (pr_of (trim out)), this),
        ran ++ [git_log_subject h]).
Proof.
  intros Hui Hh Hrun Hchore. subject_query Hui Hh Hrun.
  now rewrite Hchore.
Qed.

(** [mungeCommits] runs the body on each line in turn. *)
Lemma forOfS_cons {A S : Type} (body : S -> A -> Shell S) (x : A)
    (xs : list A) (s : S) (ran : list Command) :
  forOfS body (x :: xs) s ran
  = match body s x ran with
    | Ok (s', ran') => forOfS body xs s' ran'
    | Throw e => Throw e
    end.
Proof. reflexivity. Qed.

Lemma mungeStep_eq (run : Runner) (acc : list Commit) (this : This)
    (line : string) (ran : list Command) :
  mungeStep run (acc, this) line ran
  = match mungeLine run this line ran with
    | Ok ((c, this'), ran') => Ok ((acc ++ [c], this'), ran')
    | Throw e => Throw e
    end.
Proof.
  unfold mungeStep, sbind, ret. cbn [fst snd].
  destruct (mungeLine run this line ran) as [[[c this'] ran']|e]; reflexivity.
Qed.

Lemma mungeCommits_acc (run : Runner) (stdout : list string)
    (acc : list Commit) (this : This) (ran : list Command) :
  forOfS (mungeStep run) stdout (acc, this) ran
  = match mungeCommits run this stdout ran with
    | Ok ((cs, this'), ran') => Ok ((acc ++ cs, this'), ran')
    | Throw e => Throw e
    end.
Proof.
  unfold mungeCommits. revert acc this ran.
  induction stdout as [|l stdout IH]; intros acc this ran.
  - cbn. now rewrite app_nil_r.
  - rewrite !forOfS_cons, !mungeStep_eq.
    destruct (mungeLine run this l ran) as [[[c this'] ran']|e]; [|reflexivity].
    rewrite (IH (acc ++ [c])), (IH ([] ++ [c])).
    destruct (forOfS _ stdout ([], this') ran') as [[[cs this''] ran'']|e];
      [|reflexivity].
    now rewrite <- app_assoc.
Qed.

Lemma mungeCommits_cons (run : Runner) (this : This) (line : string)
    (stdout : list string) (ran : list Command) :
  mungeCommits run this (line :: stdout) ran
  = match mungeLine run this line ran with
    | Ok ((c, this'), ran') =>
        match mungeCommits run this' stdout ran' with
        | Ok ((cs, this''), ran'') => Ok ((c :: cs, this''), ran'')
        | Throw e => Throw e
        end
    | Throw e => Throw e
    end.
Proof.
  unfold mungeCommits at 1. rewrite forOfS_cons, mungeStep_eq.
  destruct (mungeLine run this line ran) as [[[c this'] ran']|e]; [|reflexivity].
  apply (mungeCommits_acc run stdout [c] this' ran').
Qed.

(** The one empty line of an empty difference is no graph mark and holds no
    hash: the loop body throws on it.  (The triage-next handler returns before
    it calls [mungeCommits] on that list.) *)
Example mungeCommits_empty_line (run : Runner) (this : This)
    (ran : list Command) :
  mungeCommits run this [""] ran = Throw TypeError.
Proof. reflexivity. Qed.

(** Scenario A of the specification, on a line with a full hash. *)
Example mungeCommits_scenario_A :
  exists ran,
    mungeCommits (repo "fix: notes formatting (#42)" ["next"])
      (mkThis "main" (one_ref "next") None)
      ["* 0bb0f8ce075ea1e0f6a7851d80df2bc7d303e756 fix: notes formatting (#42)";
       "o merge ui marker"] []
    = Ok (([ mkCommit
               "* 0bb0f8ce075ea1e0f6a7851d80df2bc7d303e756 fix: notes formatting (#42)"
               "next" commit_t
               (mkPretty dim_blue
                  "* 0bb0f8ce075ea1e0f6a7851d80df2bc7d303e756 fix: notes formatting (#42)")
               (Some "0bb0f8ce075ea1e0f6a7851d80df2bc7d303e756")
               (Some "fix: notes formatting (#42)") (Some "42");
             mkCommit "o merge ui marker" "main" ui_t
               (mkPretty dim "o merge ui marker") None None None ],
           mkThis "main" (ref_array ["next"]) None), ran).
Proof. eexists. vm_compute. reflexivity. Qed.

(** C9. For a line that is still a [commit] after the tag test, the loop over
    the destination refs asks every ref, in order, whatever the answers; when
    several refs hold the sanitized message, [ref] and the colour of [pretty]
    are those of the last of them; when none does, they stay as they were. *)
Theorem mungeLine_last_match (run : Runner) (this : This) (line : string)
    (ran : list Command) (i : nat) (h out : string) :
  isLineUI line = false ->
  search HASH line = Some (i, h) ->
  run (git_log_subject h) = Ok out ->
  isCommitChore line = false ->
  ANNOTATED_TAG_MESSAGE (trim out) = false ->
  (forall r, In r (to_array (to this)) ->
     exists o, run (git_log_grep r (sanitizeMessage (trim out))) = Ok o) ->
  exists c this',
    mungeLine run this line ran
    = Ok ((c, this'),
          ran ++ git_log_subject h
              :: map (fun r => git_log_grep r (sanitizeMessage (trim out)))
                   (to_array (to this)))
    /\ type c = commit_t
    /\ match last_match (holds run (trim out)) (to_array (to this)) with
       | Some r => ref c = r /\ pretty c = mkPretty (prettyFn this r) line
       | None => ref c = from this /\ pretty c = mkPretty plain line
       end.
Proof.
  intros Hui Hh Hrun Hchore Htag Hgrep. subject_query Hui Hh Hrun.
  rewrite Hchore, Htag.
  unfold sbind. cbn [to to_array].
  rewrite scanRefs_last by exact Hgrep.
  do 2 eexists. split.
  - unfold ret. rewrite <- app_assoc. reflexivity.
  - destruct (last_match (holds run (trim out)) (to_array (to this)));
      simpl; auto.
Qed.

Lemma mungeLine_last_match_witness :
  exists c this',
    mungeLine (repo "fix: x [skip ci]" ["v3.4.1"; "v3.4.2"]) this0 line0 []
    = Ok ((c, this'),
          [] ++ git_log_subject "0bb0f8ce075ea1e0f6a7851d80df2bc7d303e756"
             :: map (fun r => git_log_grep r
                                (sanitizeMessage
                                   (trim (String.append "fix: x [skip ci]"
                                            (String LF EmptyString)))))
                  (to_array (to this0)))
    /\ type c = commit_t
    /\ match last_match
               (holds (repo "fix: x [skip ci]" ["v3.4.1"; "v3.4.2"])
                  (trim (String.append "fix: x [skip ci]" (String LF EmptyString))))
               (to_array (to this0)) with
       | Some r => ref c = r /\ pretty c = mkPretty (prettyFn this0 r) line0
       | None => ref c = from this0 /\ pretty c = mkPretty plain line0
       end.
Proof.
  apply (mungeLine_last_match (repo "fix: x [skip ci]" ["v3.4.1"; "v3.4.2"])
           this0 line0 [] 1 "0bb0f8ce075ea1e0f6a7851d80df2bc7d303e756"
           (String.append "fix: x [skip ci]" (String LF EmptyString)));
    try reflexivity.
  intros r _. simpl.
  match goal with |- context [if ?b then _ else _] => destruct b end; eauto.
Defined.

(** Two of three refs hold the message: the second of them wins, and three
    queries were made. *)
Example mungeLine_two_of_three :
  mungeLine (repo "fix: x [skip ci]" ["v3.4.1"; "v3.4.2"]) this0 line0 []
  = Ok ((mkCommit line0 "v3.4.2" commit_t (mkPretty (dim_hex "#00bb00") line0)
           (Some "0bb0f8ce075ea1e0f6a7851d80df2bc7d303e756")
           (Some "fix: x [skip ci]") None, this0),
        [git_log_subject "0bb0f8ce075ea1e0f6a7851d80df2bc7d303e756";
         git_log_grep "v3.4.1" "fix: x \[skip ci\]";
         git_log_grep "v3.4.2" "fix: x \[skip ci\]";
         git_log_grep "v3.5.0" "fix: x \[skip ci\]"]).
Proof. vm_compute. reflexivity. Qed.

(** ** JSON texts *)

Lemma str_app_assoc (a b c : string) :
  ((a ++ b) ++ c)%string = (a ++ (b ++ c))%string.
Proof. induction a as [|x a IH]; simpl; [reflexivity|now rewrite IH]. Qed.

Lemma str_app_length (a b : string) :
  String.length (a ++ b)%string = String.length a + String.length b.
Proof. induction a as [|x a IH]; simpl; [reflexivity|now rewrite IH]. Qed.

(** What [quote_char] writes for a character, [scan_string] reads as that
    character. *)
Lemma scan_quote_char (c : ascii) (r : string) :
  scan_string (quote_char c ++ r)%string
  = match scan_string r with
    | Some (str, rest) => Some (String c str, rest)
    | None => None
    end.
Proof.
  destruct c as [[] [] [] [] [] [] [] []]; reflexivity.
Qed.

Lemma scan_quote_chars (s rest : string) :
  scan_string (quote_chars s ++ String DQUOTE rest)%string = Some (s, rest).
Proof.
  induction s as [|c s IH]; simpl; [reflexivity|].
  now rewrite str_app_assoc, scan_quote_char, IH.
Qed.

Lemma parse_value_quote (fuel : nat) (s rest : string) :
  parse_value (S fuel) (quote s ++ rest)%string = Some (JString s, rest).
Proof.
  unfold quote. cbn [append parse_value starts slice].
  rewrite Ascii.eqb_refl, str_app_assoc. cbn [append].
  now rewrite scan_quote_chars.
Qed.

Lemma skip_ws_quote (k rest : string) :
  skip_ws (quote k ++ rest)%string = (quote k ++ rest)%string.
Proof. reflexivity. Qed.

Lemma starts_quote (k rest : string) (c : ascii) :
  starts (quote k ++ rest)%string c = Ascii.eqb DQUOTE c.
Proof. reflexivity. Qed.

(** One member whose value parses, in front of what follows it. *)
Lemma parse_member (fuel : nat) (k vtext rest : string) (v : JSON)
    (props : JSObject.t) :
  skip_ws (vtext ++ rest)%string = (vtext ++ rest)%string ->
  parse_value fuel (vtext ++ rest)%string = Some (v, rest) ->
  parse_members (S fuel) (quote k ++ ": " ++ vtext ++ rest)%string props
  = let props := JSObject.define props k v in
    let rest := skip_ws rest in
    if starts rest "," then parse_members fuel (skip_ws (slice rest 1)) props
    else if starts rest "}" then Some (props, slice rest 1)
    else None.
Proof.
  intros Hws Hv. cbn [parse_members].
  rewrite starts_quote, Ascii.eqb_refl.
  unfold quote at 1. cbn [append].
  change (slice (String DQUOTE ?s) 1) with s.
  rewrite str_app_assoc. cbn [append]. rewrite scan_quote_chars.
  change (skip_ws (String ":" ?s)) with (String ":" s).
  change (starts (String ":" ?s) ":") with true. cbv iota.
  change (slice (String ":" ?s) 1) with s.
  change (skip_ws (String " " ?s)) with (skip_ws s).
  rewrite Hws, Hv. reflexivity.
Qed.

Lemma parse_value_bool (fuel : nat) (b : bool) (rest : string) :
  parse_value (S fuel) (bool_text b ++ rest)%string = Some (JBool b, rest).
Proof. destruct b; reflexivity. Qed.

(** The text of an entry of the cache. *)
Lemma serialize_entry (e : Entry) (rest : string) :
  (serialize "  " (entry_object e) ++ rest)%string
  = String "{" (String LF ("    "
      ++ quote "message" ++ ": " ++ quote (entry_message e) ++ ","
      ++ String LF ("    "
      ++ quote "needsCherryPick" ++ ": " ++ bool_text (needsCherryPick e)
      ++ String LF ("  }" ++ rest))))%string.
Proof.
  destruct e as [m b]. cbn [entry_object serialize map String.concat
                            entry_message needsCherryPick append NL].
  unfold quote. cbn [append quote_chars quote_char].
  repeat (rewrite !str_app_assoc; cbn [append]).
  destruct b; reflexivity.
Qed.

Lemma parse_entry (fuel : nat) (e : Entry) (rest : string) :
  4 <= fuel ->
  parse_value fuel (serialize "  " (entry_object e) ++ rest)%string
  = Some (entry_object e, rest).
Proof.
  intros Hfuel.
  destruct fuel as [|[|[|[|fuel]]]]; try lia. clear Hfuel.
  rewrite serialize_entry.
  cbn [parse_value starts slice].
  change (Ascii.eqb "{" DQUOTE) with false.
  change (Ascii.eqb "{" "[") with false.
  change (Ascii.eqb "{" "{") with true. cbv iota.
  match goal with
  | |- context [skip_ws (String LF ?s)] =>
      change (skip_ws (String LF s))
        with (quote "message" ++ ": " ++ quote (entry_message e) ++
              String "," (String LF ("    " ++ quote "needsCherryPick" ++ ": "
                 ++ bool_text (needsCherryPick e)
                 ++ String LF ("  }" ++ rest))))%string
  end.
  cbv zeta. rewrite starts_quote. change (Ascii.eqb DQUOTE "}") with false.
  cbv iota.
  rewrite (parse_member _ "message" (quote (entry_message e)) _
             (JString (entry_message e)));
    [|reflexivity|apply parse_value_quote].
  cbv zeta.
  change (skip_ws (String "," ?s)) with (String "," s).
  cbn [starts slice]. change (Ascii.eqb "," ",") with true. cbv iota.
  match goal with
  | |- context [skip_ws (String LF ?s)] =>
      change (skip_ws (String LF s))
        with (quote "needsCherryPick" ++ ": "
                 ++ bool_text (needsCherryPick e)
                 ++ String LF ("  }" ++ rest))%string
  end.
  rewrite (parse_member _ "needsCherryPick" (bool_text (needsCherryPick e)) _
             (JBool (needsCherryPick e)));
    [|destruct (needsCherryPick e); reflexivity|apply parse_value_bool].
  cbv zeta.
  change (skip_ws (String LF ("  }" ++ rest)%string)) with (String "}" rest).
  reflexivity.
Qed.

Lemma str_app_nil_r (a : string) : (a ++ "")%string = a.
Proof. induction a as [|x a IH]; simpl; [reflexivity|now rewrite IH]. Qed.

Lemma concat_members (props : list (string * JSON)) (kv : string * JSON)
    (rest : string) :
  (String.concat ("," ++ NL ++ "  ")
     (map (fun kv => match kv with
                     | (k, v') => (quote k ++ ": " ++ serialize "  " v')%string
                     end) (kv :: props))
   ++ String LF (String "}" rest))%string
  = members_text (kv :: props) rest.
Proof.
  revert kv. induction props as [|kv' props IH]; intros [k v].
  - cbn [map String.concat members_text]. now rewrite !str_app_assoc.
  - specialize (IH kv'). cbn [map String.concat] in IH |- *.
    cbn [members_text] in IH |- *. rewrite <- IH.
    rewrite !str_app_assoc. reflexivity.
Qed.

Lemma serialize_object (props : list (string * JSON)) (rest : string) :
  props <> [] ->
  (serialize "" (JObject props) ++ rest)%string
  = String "{" (String LF ("  " ++ members_text props rest))%string.
Proof.
  destruct props as [|kv props]; [congruence|]. intros _.
  rewrite <- concat_members. cbn [serialize].
  change ("" ++ "  ")%string with "  ".
  cbn [append NL]. rewrite !str_app_assoc. reflexivity.
Qed.

Lemma members_text_length (props : list (string * JSON)) (rest : string) :
  List.length props <= String.length (members_text props rest).
Proof.
  induction props as [|[k v] props IH]; simpl; [lia|].
  destruct props as [|kv props]; simpl in *; [lia|].
  rewrite str_app_length. unfold quote in *. simpl in *.
  rewrite !str_app_length in *. simpl in *. lia.
Qed.

Lemma members_text_quote (props : list (string * JSON)) (rest : string) :
  props <> [] ->
  exists k tail, members_text props rest = (quote k ++ tail)%string.
Proof.
  destruct props as [|[k v] props]; [congruence|]. intros _.
  cbn [members_text]. eauto.
Qed.

(** The members of a cache parse back, one [define] after the other. *)
Lemma parse_members_text (props : list (string * JSON)) :
  Forall (fun kv => is_entry (snd kv)) props ->
  forall (fuel : nat) (acc : JSObject.t) (rest : string),
    props <> [] ->
    List.length props + 4 <= fuel ->
    parse_members fuel (members_text props rest) acc
    = Some (fold_left (fun o kv => JSObject.define o (fst kv) (snd kv))
              props acc, rest).
Proof.
  induction 1 as [|[k v] props [e He] Hall IH]; intros fuel acc rest Hne Hfuel;
    [congruence|].
  simpl in He. subst v. cbn [List.length] in Hfuel.
  destruct fuel as [|fuel]; [lia|].
  cbn [members_text fold_left fst snd].
  rewrite (parse_member fuel k _ _ (entry_object e)).
  - cbv zeta. destruct props as [|kv props].
    + reflexivity.
    + change (skip_ws (String "," ?s)) with (String "," s).
      change (starts (String "," ?s) ",") with true. cbv iota.
      change (slice (String "," ?s) 1) with s.
      destruct (members_text_quote (kv :: props) rest) as (k' & tail & Hq);
        [congruence|].
      change (skip_ws (String LF ("  " ++ ?s)%string)) with (skip_ws s).
      rewrite Hq, skip_ws_quote, <- Hq.
      apply IH; [congruence|cbn [List.length] in *; lia].
  - rewrite serialize_entry. reflexivity.
  - apply parse_entry. lia.
Qed.

(** [JSON.parse] reads the text [JSON.stringify] wrote for an object of
    entries, and rebuilds the object property by property. *)
Lemma parse_stringify_entries (props : list (string * JSON)) :
  Forall (fun kv => is_entry (snd kv)) props ->
  JSON_parse (JSON_stringify (JObject props))
  = Ok (JObject (JSObject.fromEntries props)).
Proof.
  intros Hall. destruct props as [|kv props]; [reflexivity|].
  unfold JSON_parse, JSON_stringify.
  pose proof (serialize_object (kv :: props) "") as Htext.
  rewrite str_app_nil_r in Htext by congruence.
  rewrite Htext by congruence.
  change (skip_ws (String "{" ?s)) with (String "{" s).
  cbn [String.length]. cbn [parse_value].
  change (starts (String "{" ?s) DQUOTE) with false.
  change (starts (String "{" ?s) "[") with false.
  change (starts (String "{" ?s) "{") with true. cbv iota.
  change (slice (String "{" ?s) 1) with s.
  change (skip_ws (String LF ("  " ++ ?s)%string)) with (skip_ws s).
  destruct (members_text_quote (kv :: props) "") as (k' & tail & Hq);
    [congruence|].
  cbv zeta. rewrite Hq, skip_ws_quote, starts_quote, <- Hq.
  change (Ascii.eqb DQUOTE "}") with false. cbv iota.
  rewrite parse_members_text; [reflexivity|assumption|congruence|].
  pose proof (members_text_length (kv :: props) "") as Hlen.
  rewrite str_app_length. cbn [String.length]. lia.
Qed.

(** ** Objects *)

Module JSObjectFacts.
Import JSMap JSObject JSMapFacts.

Lemma get_app (o : JSObject.t) (k : string) (v : JSON) (k' : string) :
  get (o ++ [(k, v)]) k'
  = match get o k' with
    | Some x => Some x
    | None => if String.eqb k k' then Some v else None
    end.
Proof.
  induction o as [|[k0 v0] o IH]; simpl; [reflexivity|].
  destruct (String.eqb k0 k'); [reflexivity|exact IH].
Qed.

Lemma get_insert_index (n : N) (o : JSObject.t) (k : string) (v : JSON)
    (k' : string) :
  get o k = None ->
  get (insert_index n k v o) k' = if String.eqb k k' then Some v else get o k'.
Proof.
  induction o as [|[k0 v0] o IH]; simpl; [reflexivity|].
  destruct (String.eqb_spec k0 k) as [->|Hne]; [discriminate|]. intros Hk.
  destruct (array_index k0) as [n0|]; [destruct (n0 <? n)%N|]; simpl;
    try reflexivity.
  rewrite IH by assumption.
  destruct (String.eqb_spec k0 k') as [->|_]; [|reflexivity].
  destruct (String.eqb_spec k k'); [congruence|reflexivity].
Qed.

(** Defining a property sets its value and leaves the others. *)
Lemma get_define (o : JSObject.t) (k : string) (v : JSON) (k' : string) :
  get (define o k v) k' = if String.eqb k k' then Some v else get o k'.
Proof.
  unfold define, has. destruct (get o k) eqn:Hk.
  - apply get_set.
  - destruct (array_index k).
    + now apply get_insert_index.
    + rewrite get_app. destruct (String.eqb_spec k k') as [<-|_].
      * now rewrite Hk.
      * destruct (get o k'); reflexivity.
Qed.

Lemma keys_insert_index (n : N) (o : JSObject.t) (k : string) (v : JSON) :
  Permutation (keys (insert_index n k v o)) (k :: keys o).
Proof.
  induction o as [|[k0 v0] o IH]; simpl; [reflexivity|].
  destruct (array_index k0) as [n0|]; [destruct (n0 <? n)%N|]; simpl;
    try reflexivity.
  rewrite IH. apply perm_swap.
Qed.

Lemma wf_define (o : JSObject.t) (k : string) (v : JSON) :
  wf o -> wf (define o k v).
Proof.
  unfold define. intros Hwf. destruct (has o k) eqn:Hhas.
  - now apply wf_set.
  - assert (Hnew : NoDup (k :: keys o))
      by (constructor; [now apply has_false|assumption]).
    unfold wf. destruct (array_index k).
    + eapply Permutation_NoDup; [|exact Hnew].
      symmetry. apply keys_insert_index.
    + unfold keys. rewrite map_app. simpl.
      eapply Permutation_NoDup; [|exact Hnew]. apply Permutation_cons_append.
Qed.

Lemma in_define (o : JSObject.t) (k : string) (v : JSON) (kv : string * JSON) :
  In kv (define o k v) -> kv = (k, v) \/ In kv o.
Proof.
  unfold define. destruct (has o k).
  - induction o as [|[k0 v0] o IH]; simpl.
    + intros [<-|[]]. now left.
    + destruct (String.eqb_spec k0 k) as [->|_]; simpl.
      * intros [<-|Hin]; auto.
      * intros [<-|Hin]; auto. destruct (IH Hin); auto.
  - destruct (array_index k) as [n|].
    + induction o as [|[k0 v0] o IH]; simpl.
      * intros [<-|[]]. now left.
      * destruct (array_index k0) as [n0|]; [destruct (n0 <? n)%N|]; simpl;
          try (intros [<-|[<-|Hin]]; now auto).
        intros [<-|Hin]; auto. destruct (IH Hin); auto.
    + intros Hin. apply in_app_or in Hin. destruct Hin as [Hin|[<-|[]]]; auto.
Qed.

Section Fold.
Variable l : list (string * JSON).

Let step := fun (o : JSObject.t) (kv : string * JSON) =>
              define o (fst kv) (snd kv).

Lemma wf_fold_define (o : JSObject.t) : wf o -> wf (fold_left step l o).
Proof.
  revert o. induction l as [|kv l' IH]; intros o Ho; simpl; [assumption|].
  apply IH. now apply wf_define.
Qed.

Lemma in_fold_define (o : JSObject.t) (kv : string * JSON) :
  In kv (fold_left step l o) -> In kv l \/ In kv o.
Proof.
  revert o. induction l as [|kv' l' IH]; intros o; simpl; [auto|].
  intros Hin. destruct (IH _ Hin) as [H|H]; [auto|].
  apply in_define in H. destruct H as [->|H]; [|auto].
  left. left. now destruct kv'.
Qed.

Lemma get_fold_define (o : JSObject.t) (k : string) :
  get (fold_left step l o) k
  = match get (rev l) k with
    | Some v => Some v
    | None => get o k
    end.
Proof.
  revert o. induction l as [|[k0 v0] l' IH]; intros o; simpl; [reflexivity|].
  rewrite IH. unfold step. simpl. rewrite get_define. clear IH.
  induction (rev l') as [|[k1 v1] r IHr]; simpl.
  - destruct (String.eqb k0 k); reflexivity.
  - destruct (String.eqb k1 k); [reflexivity|exact IHr].
Qed.
End Fold.

Lemma wf_fromEntries (l : list (string * JSON)) : wf (fromEntries l).
Proof. apply wf_fold_define. constructor. Qed.

#[global] Hint Resolve wf_define wf_fromEntries : jsmap.

Lemma get_fromEntries (l : list (string * JSON)) (k : string) :
  wf l -> get (fromEntries l) k = get l k.
Proof.
  intros Hwf. unfold fromEntries. rewrite get_fold_define, get_rev by assumption.
  destruct (get l k); reflexivity.
Qed.

Lemma fromEntries_entries (l : list (string * JSON)) :
  Forall (fun kv => is_entry (snd kv)) l ->
  Forall (fun kv => is_entry (snd kv)) (fromEntries l).
Proof.
  rewrite !Forall_forall. intros Hl kv Hin.
  apply in_fold_define in Hin. destruct Hin as [Hin|[]]. now apply Hl.
Qed.
End JSObjectFacts.

(** ** setupData *)

Lemma cache_objects_keys (data : JSMap.t Entry) :
  JSMap.keys (cache_objects data) = JSMap.keys data.
Proof.
  unfold cache_objects, JSMap.keys. rewrite map_map. reflexivity.
Qed.

Lemma cache_objects_entries (data : JSMap.t Entry) :
  Forall (fun kv => is_entry (snd kv)) (cache_objects data).
Proof.
  apply Forall_forall. intros kv Hin. apply in_map_iff in Hin.
  destruct Hin as [[k e] [<- _]]. now exists e.
Qed.

Lemma cache_objects_get (data : JSMap.t Entry) (k : string) :
  JSMap.get (cache_objects data) k = option_map entry_object (JSMap.get data k).
Proof.
  induction data as [|[k' e] data IH]; simpl; [reflexivity|].
  destruct (String.eqb k' k); [reflexivity|exact IH].
Qed.

(** [setupData] never throws. *)
Lemma setupData_total (fs : Files) (path : string) :
  exists dataFile, setupData fs path = Ok dataFile.
Proof.
  unfold setupData, try_catch.
  match goal with |- context [match ?b with _ => _ end] => destruct b end; eauto.
Qed.

(** C4. When the cache file is missing, or holds what is not JSON,
    [setupData] returns the empty map and throws nothing. *)
Theorem setupData_resilient (fs : Files) (path : string) :
  fs path = None
  \/ (exists text, fs path = Some text /\ JSON_parse text = Throw SyntaxError) ->
  setupData fs path = Ok [].
Proof.
  unfold setupData, readFileSync. intros [Hmiss|(text & Hfile & Hparse)].
  - now rewrite Hmiss.
  - rewrite Hfile. simpl. now rewrite Hparse.
Qed.

Lemma setupData_resilient_witness :
  setupData broken_file "data/triageMainData.json" = Ok [].
Proof.
  apply (setupData_resilient broken_file "data/triageMainData.json").
  right. exists "{ bad". split; reflexivity.
Defined.

Example setupData_missing :
  setupData no_files "data/triageMainData.json" = Ok [].
Proof. reflexivity. Qed.

(** Scenario C, and other texts that are not JSON. *)
Example JSON_parse_malformed :
  JSON_parse "{ bad" = Throw SyntaxError
  /\ JSON_parse "" = Throw SyntaxError
  /\ JSON_parse "{} x" = Throw SyntaxError
  /\ JSON_parse "[1, 2.5e-3, true, null, {}, [[]], 01]" = Throw SyntaxError.
Proof. repeat split. Qed.

(** What [setupData] reads from the file the exit hook wrote. *)
Lemma setupData_on_exit (fs : Files) (path : string) (data : JSMap.t Entry) :
  setupData (on_exit path (cache_objects data) fs) path
  = Ok (JSMap.of_entries
          (JSObject.fromEntries (JSObject.fromEntries (cache_objects data)))).
Proof.
  unfold setupData, on_exit, readFileSync, writeFileSync, JSMap.entries.
  rewrite String.eqb_refl. cbn [bind].
  rewrite parse_stringify_entries
    by apply JSObjectFacts.fromEntries_entries, cache_objects_entries.
  reflexivity.
Qed.

(** C5. Loading the file the exit hook wrote for a cache gives a map equal to
    the cache: the same keys, each with the value it had (the same entries,
    keys that are array indices possibly in another place). *)
Theorem persist_load_roundtrip (fs : Files) (path : string)
    (data : JSMap.t Entry) :
  JSMap.wf data ->
  exists loaded,
    setupData (on_exit path (cache_objects data) fs) path = Ok loaded
    /\ JSMap.wf loaded
    /\ (forall k, JSMap.get loaded k = option_map entry_object (JSMap.get data k))
    /\ Permutation loaded (cache_objects data).
Proof.
  intros Hwf. eexists. split; [apply setupData_on_exit|].
  assert (Hwf' : JSMap.wf (cache_objects data))
    by (unfold JSMap.wf; now rewrite cache_objects_keys).
  assert (Hget : forall k,
             JSMap.get
               (JSMap.of_entries
                  (JSObject.fromEntries (JSObject.fromEntries (cache_objects data))))
               k
             = JSMap.get (cache_objects data) k).
  { intros k.
    rewrite JSMapFacts.get_of_entries by auto with jsmap.
    rewrite JSObjectFacts.get_fromEntries by auto with jsmap.
    now apply JSObjectFacts.get_fromEntries. }
  split; [auto with jsmap|]. split.
  - intros k. rewrite Hget. apply cache_objects_get.
  - apply JSMapFacts.same_entries; auto with jsmap.
Qed.

Lemma persist_load_roundtrip_witness :
  exists loaded,
    setupData (on_exit "data/triageMainData.json" (cache_objects cache0) no_files)
      "data/triageMainData.json" = Ok loaded
    /\ JSMap.wf loaded
    /\ (forall k, JSMap.get loaded k = option_map entry_object (JSMap.get cache0 k))
    /\ Permutation loaded (cache_objects cache0).
Proof.
  apply (persist_load_roundtrip no_files "data/triageMainData.json" cache0).
  exact cache0_wf.
Defined.

(** The round trip on [cache0]: the key that is an array index comes first. *)
Example roundtrip_cache0 :
  setupData (on_exit "data/triageMainData.json" (cache_objects cache0) no_files)
    "data/triageMainData.json"
  = Ok [ ("123456789", entry_object (mkEntry "fix: z" false));
         ("abc123456", entry_object (mkEntry "fix: x" true));
         ("def123456", entry_object (mkEntry "fix: y" true));
         ("fedcba987", entry_object (mkEntry "old" false)) ].
Proof. vm_compute. reflexivity. Qed.

(** * Further properties of the release scripts *)

(** ** Strings and patterns *)

Lemma take_slice (s : string) (n : nat) :
  (take n s ++ slice s n)%string = s.
Proof.
  revert s. induction n as [|n IH]; intros [|c s]; simpl; try reflexivity.
  now rewrite IH.
Qed.

Lemma take_length (s : string) (n : nat) :
  n <= String.length s -> String.length (take n s) = n.
Proof.
  revert s. induction n as [|n IH]; intros [|c s]; simpl; intros H;
    try reflexivity; try lia.
  rewrite IH; [reflexivity|lia].
Qed.

Lemma slice_app (w rest : string) (k : nat) :
  slice (w ++ rest)%string (String.length w + k) = slice rest k.
Proof. induction w as [|c w IH]; simpl; [reflexivity|exact IH]. Qed.

Lemma slice_slice (s : string) (i j : nat) :
  slice (slice s i) j = slice s (i + j).
Proof.
  revert s. induction i as [|i IH]; intros s; [reflexivity|].
  destruct s as [|c s]; simpl; [now destruct j|apply IH].
Qed.

(** [search] returns the first index at which the pattern matches. *)
Lemma search_Some {A : Type} (m : string -> option A) (s : string) (i : nat)
    (a : A) :
  search m s = Some (i, a) ->
  i <= String.length s
  /\ m (slice s i) = Some a
  /\ forall j, j < i -> m (slice s j) = None.
Proof.
  revert i. induction s as [|c s IH]; intros i; cbn [search].
  - destruct (m EmptyString) eqn:Hm; [|discriminate].
    intros [= <- <-]. split; [simpl; lia|]. split; [exact Hm|]. intros j Hj; lia.
  - destruct (m (String c s)) eqn:Hm.
    + intros [= <- <-]. split; [simpl; lia|]. split; [exact Hm|].
      intros j Hj; lia.
    + destruct (search m s) as [[i' a']|] eqn:Hs; [|discriminate].
      intros [= <- <-]. destruct (IH i' eq_refl) as (Hle & Hat & Hbefore).
      split; [simpl; lia|]. split; [exact Hat|].
      intros [|j] Hj; [exact Hm|]. apply Hbefore. lia.
Qed.

Lemma search_None {A : Type} (m : string -> option A) (s : string) :
  search m s = None ->
  forall j, j <= String.length s -> m (slice s j) = None.
Proof.
  induction s as [|c s IH]; cbn [search].
  - destruct (m EmptyString) eqn:Hm; [discriminate|].
    intros _ [|j] Hj; [exact Hm|simpl in Hj; lia].
  - destruct (m (String c s)) eqn:Hm; [discriminate|].
    destruct (search m s) as [[i' a']|] eqn:Hs; [discriminate|].
    intros _ [|j] Hj; [exact Hm|]. apply IH; [reflexivity|simpl in Hj; lia].
Qed.

Lemma search_here {A : Type} (m : string -> option A) (s : string) (a : A) :
  m s = Some a -> search m s = Some (0, a).
Proof. intros H. destruct s; cbn [search]; now rewrite H. Qed.

Lemma times_Some (cls : ascii -> bool) (n : nat) (s w rest : string) :
  times cls n s = Some (w, rest) ->
  s = (w ++ rest)%string /\ String.length w = n /\ str_forall cls w = true.
Proof.
  revert s w rest. induction n as [|n IH]; intros s w rest; cbn [times].
  - intros [= <- <-]. repeat split.
  - destruct s as [|c s]; [discriminate|].
    destruct (cls c) eqn:Hc; [|discriminate].
    destruct (times cls n s) as [[w' rest']|] eqn:Ht; [|discriminate].
    intros [= <- <-]. destruct (IH _ _ _ Ht) as (-> & <- & Hall).
    repeat split. simpl. now rewrite Hc, Hall.
Qed.

Lemma times_app (cls : ascii -> bool) (w rest : string) :
  str_forall cls w = true ->
  times cls (String.length w) (w ++ rest)%string = Some (w, rest).
Proof.
  induction w as [|c w IH]; simpl; [reflexivity|].
  intros H. apply andb_true_iff in H. destruct H as [Hc Hw].
  now rewrite Hc, IH.
Qed.

Lemma many_app (cls : ascii -> bool) (ds rest : string) :
  str_forall cls ds = true -> many cls rest = EmptyString ->
  many cls (ds ++ rest)%string = ds.
Proof.
  induction ds as [|c ds IH]; simpl; [auto|].
  intros H Hrest. apply andb_true_iff in H. destruct H as [Hc Hds].
  now rewrite Hc, IH.
Qed.

(** ** parseCommit *)

(** X1. When [parseCommit] returns, the hash is the leftmost run of 9 word
    characters of the line, and the message is what follows the character
    after that run, whatever that character is; the pull request number is
    read off the message. *)
Theorem parseCommit_shape (commit : string) (r : ParsedCommit) :
  parseCommit commit = Ok r ->
  exists before after,
    commit = (before ++ p_hash r ++ after)%string
    /\ String.length (p_hash r) = 9
    /\ str_forall isWordChar (p_hash r) = true
    /\ (forall j, j < String.length before ->
                  word_run 9 (slice commit j) = false)
    /\ p_message r = slice after 1
    /\ p_pr r = pr_of (p_message r).
Proof.
  unfold parseCommit.
  destruct (search WORD9 commit) as [[i h]|] eqn:Hs; [|discriminate].
  intros [= <-]. cbn [p_hash p_message p_pr].
  destruct (search_Some _ _ _ _ Hs) as (Hle & Hat & Hbefore).
  unfold WORD9 in Hat.
  destruct (times isWordChar 9 (slice commit i)) as [[w rest]|] eqn:Ht;
    [|discriminate].
  injection Hat as ->. destruct (times_Some _ _ _ _ _ Ht) as (Hsl & Hlen & Hall).
  exists (take i commit), rest. rewrite <- Hsl, take_slice.
  rewrite take_length by exact Hle. repeat split; try assumption.
  - intros j Hj. apply WORD9_word_run. now apply Hbefore.
  - replace (i + 10) with (i + (String.length h + 1)) by lia.
    rewrite <- slice_slice, Hsl. now rewrite slice_app.
Qed.

Lemma parseCommit_shape_witness :
  exists before after,
    "* abc123456 fix: x (#42)" = (before ++ "abc123456" ++ after)%string
    /\ String.length "abc123456" = 9
    /\ str_forall isWordChar "abc123456" = true
    /\ (forall j, j < String.length before ->
                  word_run 9 (slice "* abc123456 fix: x (#42)" j) = false)
    /\ "fix: x (#42)" = slice after 1
    /\ Some "42" = pr_of "fix: x (#42)".
Proof.
  apply (parseCommit_shape "* abc123456 fix: x (#42)"
           (mkParsed "abc123456" "fix: x (#42)" (Some "42"))).
  reflexivity.
Defined.

(** X2. On a line that starts with 9 word characters [parseCommit] takes
    these as the hash and drops one character after them: a line made of a
    hash of 9 characters, a space and a message is read back, and of a longer
    hash the first 9 characters are the hash and the remainder of the hash,
    but for one character, opens the message. *)
Theorem parseCommit_prefix (w rest : string) :
  String.length w = 9 ->
  str_forall isWordChar w = true ->
  parseCommit (w ++ rest)%string
  = Ok (mkParsed w (slice rest 1) (pr_of (slice rest 1))).
Proof.
  intros Hlen Hall. unfold parseCommit.
  assert (Hm : WORD9 (w ++ rest)%string = Some w).
  { unfold WORD9. rewrite <- Hlen. now rewrite times_app. }
  rewrite (search_here _ _ _ Hm).
  replace (0 + 10) with (String.length w + 1) by lia.
  now rewrite slice_app.
Qed.

Lemma parseCommit_prefix_witness :
  parseCommit ("0bb0f8ce0" ++ "75ea1e0f6a7851d80df2bc7d303e756 chore (#6779)")%string
  = Ok (mkParsed "0bb0f8ce0"
          (slice "75ea1e0f6a7851d80df2bc7d303e756 chore (#6779)" 1)
          (pr_of (slice "75ea1e0f6a7851d80df2bc7d303e756 chore (#6779)" 1))).
Proof.
  apply (parseCommit_prefix "0bb0f8ce0"
           "75ea1e0f6a7851d80df2bc7d303e756 chore (#6779)"); reflexivity.
Defined.

Example parseCommit_full_hash :
  parseCommit "0bb0f8ce075ea1e0f6a7851d80df2bc7d303e756 chore (#6779)"
  = Ok (mkParsed "0bb0f8ce0" "5ea1e0f6a7851d80df2bc7d303e756 chore (#6779)"
          (Some "6779")).
Proof. reflexivity. Qed.

(** ** The pull request number *)

Lemma PR_other (c : ascii) (s : string) :
  Ascii.eqb c "#" = false -> PR (String c s) = None.
Proof.
  destruct c as [[] [] [] [] [] [] [] []]; intros H;
    (discriminate H || reflexivity).
Qed.

(** X3. The pull request number of a message is the run of digits after the
    first [#], when that run is not empty: of [fix: x (#42)] it is [42]. *)
Theorem pr_of_first (before digits after : string) :
  occurrences "#" before = 0 ->
  digits <> EmptyString ->
  str_forall isDigit digits = true ->
  many isDigit after = EmptyString ->
  pr_of (before ++ "#" ++ digits ++ after)%string = Some digits.
Proof.
  intros Hbefore Hne Hdigits Hafter. unfold pr_of.
  assert (Htail : search PR ("#" ++ digits ++ after)%string = Some (0, digits)).
  { apply search_here. cbn [append PR].
    rewrite many_app by assumption. destruct digits; [congruence|reflexivity]. }
  revert Htail. generalize ("#" ++ digits ++ after)%string as tail.
  intros tail Htail.
  assert (Hs : exists i, search PR (before ++ tail)%string = Some (i, digits)).
  { induction before as [|c before IH].
    - exists 0. exact Htail.
    - cbn [occurrences] in Hbefore.
      destruct (Ascii.eqb c "#") eqn:Hc; [discriminate|].
      destruct (IH Hbefore) as [i Hi]. exists (S i).
      cbn [append search]. rewrite (PR_other _ _ Hc). now rewrite Hi. }
  destruct Hs as [i ->]. reflexivity.
Qed.

Lemma pr_of_first_witness :
  pr_of ("chore(deps): update babel monorepo (" ++ "#" ++ "6779" ++ ")")%string
  = Some "6779".
Proof.
  apply (pr_of_first "chore(deps): update babel monorepo (" "6779" ")");
    (reflexivity || discriminate).
Defined.

(** A message without [#] names no pull request. *)
Lemma pr_of_none (message : string) :
  occurrences "#" message = 0 -> pr_of message = None.
Proof.
  intros H. unfold pr_of.
  assert (Hs : search PR message = None).
  { induction message as [|c m IH]; [reflexivity|].
    cbn [occurrences] in H.
    destruct (Ascii.eqb c "#") eqn:Hc; [discriminate|].
    cbn [search]. rewrite (PR_other _ _ Hc). now rewrite IH. }
  now rewrite Hs.
Qed.

(** ** The lines of getSymmetricDifference *)

Lemma split_not_nil (s : string) (sep : ascii) : split s sep <> [].
Proof.
  induction s as [|c s IH]; simpl; [discriminate|].
  destruct (Ascii.eqb c sep); [discriminate|].
  destruct (split s sep); discriminate.
Qed.

Lemma split_no_sep (s : string) (sep : ascii) :
  Forall (fun piece => occurrences sep piece = 0) (split s sep).
Proof.
  induction s as [|c s IH]; simpl.
  - repeat constructor.
  - destruct (Ascii.eqb c sep) eqn:Hc.
    + constructor; [reflexivity|exact IH].
    + destruct (split s sep) as [|piece pieces]; [repeat constructor; simpl; now rewrite Hc|].
      inversion IH; subst. constructor; [|assumption].
      simpl. now rewrite Hc.
Qed.

Lemma concat_split (s : string) (sep : ascii) :
  String.concat (String sep EmptyString) (split s sep) = s.
Proof.
  induction s as [|c s IH]; [reflexivity|]. cbn [split].
  destruct (Ascii.eqb_spec c sep) as [->|_].
  - pose proof (split_not_nil s sep) as Hne.
    destruct (split s sep) as [|piece pieces]; [congruence|].
    cbn [String.concat append] in *. now rewrite IH.
  - pose proof (split_not_nil s sep) as Hne.
    destruct (split s sep) as [|piece pieces]; [congruence|].
    destruct pieces as [|piece' pieces]; cbn [String.concat append] in *;
      now rewrite IH.
Qed.

(** X5. When the log command succeeds, [getSymmetricDifference] returns at
    least one line, no line holds a line feed, and the lines joined by line
    feeds are the trimmed output of the command: nothing is dropped or
    reordered. *)
Theorem getSymmetricDifference_lines (run : Runner) (leftRef rightRef : string)
    (options : list string) (ran : list Command) (stdout : string) :
  run (git_log options leftRef rightRef) = Ok stdout ->
  exists lines,
    getSymmetricDifference run leftRef rightRef options ran
    = Ok (lines, ran ++ [git_log options leftRef rightRef])
    /\ lines <> []
    /\ Forall (fun l => occurrences LF l = 0) lines
    /\ String.concat NL lines = trim stdout.
Proof.
  intros Hrun. exists (split (trim stdout) LF). split.
  - unfold getSymmetricDifference, sbind, exec. now rewrite Hrun.
  - split; [apply split_not_nil|]. split; [apply split_no_sep|].
    apply concat_split.
Qed.

Lemma getSymmetricDifference_lines_witness :
  exists lines,
    getSymmetricDifference (repo "fix: x" []) "main" "next" sharedGitLogOptions []
    = Ok (lines, [] ++ [git_log sharedGitLogOptions "main" "next"])
    /\ lines <> []
    /\ Forall (fun l => occurrences LF l = 0) lines
    /\ String.concat NL lines = trim line0.
Proof.
  apply (getSymmetricDifference_lines (repo "fix: x" []) "main" "next"
           sharedGitLogOptions [] line0).
  reflexivity.
Defined.

(** When the command fails, so does [getSymmetricDifference]. *)
Lemma getSymmetricDifference_throws (run : Runner) (leftRef rightRef : string)
    (options : list string) (ran : list Command) (e : Error) :
  run (git_log options leftRef rightRef) = Throw e ->
  getSymmetricDifference run leftRef rightRef options ran = Throw e.
Proof.
  intros Hrun. unfold getSymmetricDifference, sbind, exec. now rewrite Hrun.
Qed.

(** ** purgeData on commits that share no hash with the cache *)

Lemma filter_none {A : Type} (p : A -> bool) (l : list A) :
  (forall x, In x l -> p x = false) -> filter p l = [].
Proof.
  induction l as [|x l IH]; simpl; intros H; [reflexivity|].
  rewrite (H x) by now left. apply IH. intros y Hy. apply H. now right.
Qed.

(** X6. When no key of the cache is the hash of one of the commits, and so
    when there are no commits at all, [purgeData] empties the cache. *)
Theorem purgeData_disjoint (data : JSMap.t Entry) (commits : list Commit)
    (branch : string) :
  (forall k, In k (JSMap.keys data) -> includes (map hash commits) k = false) ->
  purgeData data commits branch = Ok [].
Proof.
  intros Hdis. rewrite purgeData_filter. apply f_equal.
  apply filter_none. intros [k e] Hin. cbn [fst].
  rewrite (Hdis k); [reflexivity|]. apply (in_map fst) in Hin. exact Hin.
Qed.

Lemma purgeData_disjoint_witness :
  purgeData cache0 [] "next" = Ok [].
Proof.
  apply (purgeData_disjoint cache0 [] "next"). reflexivity.
Defined.

(** ** What mungeCommits keeps *)

Lemma HASH_full (s h : string) : HASH s = Some h -> full_hash h.
Proof.
  unfold HASH. destruct s as [|c s]; [discriminate|].
  destruct (isWhiteSpace c); [|discriminate].
  destruct (times isWordChar 40 s) as [[w rest]|] eqn:Ht; [|discriminate].
  destruct rest as [|c' rest]; [discriminate|].
  destruct (isWhiteSpace c'); [|discriminate]. intros [= <-].
  apply times_Some in Ht. unfold full_hash. tauto.
Qed.

Lemma prettyFn_same (this this' : This) (r : string) :
  refsToColors this' = refsToColors this -> prettyFn this' r = prettyFn this r.
Proof. unfold prettyFn. now intros ->. Qed.

(** The loop over the refs, when it returns: one query per ref, and the
    record is the one given or carries one of the refs. *)
Lemma scanRefs_returns (run : Runner) (this : This) (msg : string)
    (refs : list string) (c c' : Commit) (ran ran' : list Command) :
  scanRefs run this msg refs c ran = Ok (c', ran') ->
  (c' = c
   \/ exists r, In r refs
                /\ c' = with_ref c r (mkPretty (prettyFn this r) (line c)))
  /\ exists cmds, ran' = ran ++ cmds
                  /\ List.length cmds = List.length refs
                  /\ forallb (fun cmd => negb (is_git_log cmd)) cmds = true.
Proof.
  unfold scanRefs. revert c ran.
  induction refs as [|r refs IH]; intros c ran; cbn [forOfS].
  - unfold ret. intros [= <- <-]. split; [now left|].
    exists []. now rewrite app_nil_r.
  - unfold sbind at 1. unfold isCommitInRef, sbind, exec.
    destruct (run (git_log_grep r (sanitizeMessage msg))) as [out|e];
      [|discriminate].
    unfold ret at 1.
    destruct (negb (String.eqb (trim out) "")); unfold ret at 1; intros H;
      apply IH in H; destruct H as [Hc (cmds & -> & Hlen & Hcmds)].
    + split.
      * right. destruct Hc as [->|(r' & Hr' & ->)].
        -- exists r. split; [now left|reflexivity].
        -- exists r'. split; [now right|reflexivity].
      * exists (git_log_grep r (sanitizeMessage msg) :: cmds).
        rewrite <- app_assoc. simpl. rewrite Hlen, Hcmds. auto.
    + split.
      * destruct Hc as [->|(r' & Hr' & ->)]; [now left|].
        right. exists r'. split; [now right|reflexivity].
      * exists (git_log_grep r (sanitizeMessage msg) :: cmds).
        rewrite <- app_assoc. simpl. rewrite Hlen, Hcmds. auto.
Qed.

(** Reads the fields of a record that is written out. *)
Ltac fields :=
  cbn [type line ref pretty hash message pr text style from to refsToColors].

(** Settles the parts of [classified] that the fields decide. *)
Ltac sort_out :=
  repeat match goal with
         | |- _ /\ _ => split
         | |- _ <-> _ => split
         | |- _ -> _ => intro
         end;
  repeat match goal with
         | H : _ /\ _ |- _ => destruct H
         | H : _ \/ _ |- _ => destruct H
         end;
  try congruence; try tauto; eauto 8.

(** One line, when the body returns. *)
Lemma mungeLine_returns (run : Runner) (this this' : This) (l : string)
    (c : Commit) (ran ran' : list Command) :
  mungeLine run this l ran = Ok ((c, this'), ran') ->
  line c = l
  /\ classified this c
  /\ same_context this this'
  /\ exists cmds,
       ran' = ran ++ cmds
       /\ List.length cmds
          <= (if isLineUI l then 0 else 1 + List.length (to_array (to this)))
       /\ forallb (fun cmd => negb (is_git_log cmd)) cmds = true.
Proof.
  unfold mungeLine. destruct (isLineUI l) eqn:Hui.
  - unfold ret. intros [= <- <- <-]. split; [reflexivity|].
    split; [|split; [repeat split|exists []; now rewrite app_nil_r]].
    unfold classified, with_type; fields. sort_out.
  - destruct (search HASH l) as [[i h]|] eqn:Hh; [|discriminate].
    pose proof Hh as Hfull.
    apply search_Some in Hfull. destruct Hfull as (_ & Hfull & _).
    apply HASH_full in Hfull.
    unfold sbind at 1. unfold getCommitMessage, sbind at 1, exec.
    destruct (run (git_log_subject h)) as [out|e]; [|discriminate].
    unfold ret at 1. destruct (isCommitChore l) eqn:Hchore.
    + unfold ret. intros [= <- <- <-]. split; [reflexivity|].
      split; [|split; [repeat split|exists [git_log_subject h]; simpl; split;
                                     [reflexivity|split; [lia|reflexivity]]]].
      unfold classified, with_type, with_message; fields. sort_out.
    + destruct (ANNOTATED_TAG_MESSAGE (trim out)) eqn:Htag.
      * unfold ret. intros [= <- <- <-]. split; [reflexivity|].
        split; [|split; [repeat split|exists [git_log_subject h]; simpl; split;
                                       [reflexivity|split; [lia|reflexivity]]]].
        unfold classified, with_type, with_ref, with_message; fields. sort_out.
      * unfold sbind. cbn [to to_array].
        destruct (scanRefs run _ (trim out) (to_array (to this)) _
                    (ran ++ [git_log_subject h])) as [[c' ran1]|e] eqn:Hscan;
          [|discriminate].
        unfold ret. intros [= <- <- <-].
        apply scanRefs_returns in Hscan.
        destruct Hscan as [Hc (cmds & -> & Hlen & Hcmds)].
        split; [destruct Hc as [->|(r & _ & ->)]; reflexivity|].
        split; [|split; [repeat split|]].
        -- unfold classified.
           destruct Hc as [->|(r & Hr & ->)];
             unfold with_ref, with_message; fields; sort_out.
        -- exists (git_log_subject h :: cmds). rewrite <- app_assoc.
           simpl. rewrite Hlen, Hcmds. auto.
Qed.

Lemma classified_context (this this' : This) (c : Commit) :
  same_context this this' -> classified this' c -> classified this c.
Proof.
  intros (Hfrom & Hto & Hcolors). unfold classified.
  rewrite Hfrom, Hto, (prettyFn_same this this' _ Hcolors). tauto.
Qed.

Lemma same_context_trans (a b c : This) :
  same_context a b -> same_context b c -> same_context a c.
Proof. unfold same_context. intros (-> & -> & ->) (-> & -> & ->). auto. Qed.

(** The whole loop, when it returns. *)
Lemma mungeCommits_returns (run : Runner) (stdout : list string) :
  forall (this this' : This) (cs : list Commit) (ran ran' : list Command),
    mungeCommits run this stdout ran = Ok ((cs, this'), ran') ->
    map line cs = stdout
    /\ Forall (classified this) cs
    /\ same_context this this'
    /\ exists cmds,
         ran' = ran ++ cmds
         /\ List.length cmds
            <= (1 + List.length (to_array (to this)))
               * List.length (commit_lines stdout)
         /\ forallb (fun cmd => negb (is_git_log cmd)) cmds = true.
Proof.
  induction stdout as [|l stdout IH]; intros this this' cs ran ran'.
  - unfold mungeCommits. cbn. intros [= <- <- <-].
    repeat split; auto. exists []. rewrite app_nil_r. simpl.
    split; [reflexivity|split; [lia|reflexivity]].
  - rewrite mungeCommits_cons.
    destruct (mungeLine run this l ran) as [[[c this1] ran1]|e] eqn:Hl;
      [|discriminate].
    destruct (mungeCommits run this1 stdout ran1) as [[[cs' this2] ran2]|e]
      eqn:Hrest; [|discriminate].
    intros [= <- <- <-].
    apply mungeLine_returns in Hl.
    destruct Hl as (Hline & Hc & Hctx & cmds1 & -> & Hlen1 & Hlog1).
    apply IH in Hrest.
    destruct Hrest as (Hlines & Hcs & Hctx' & cmds2 & -> & Hlen2 & Hlog2).
    split; [simpl; now rewrite Hline, Hlines|].
    split.
    { constructor; [exact Hc|].
      eapply Forall_impl; [|exact Hcs].
      intros c'. now apply classified_context. }
    split; [eapply same_context_trans; eassumption|].
    exists (cmds1 ++ cmds2). rewrite app_assoc. split; [reflexivity|].
    split.
    + rewrite length_app. destruct Hctx as (_ & Hto & _).
      rewrite Hto in Hlen2. unfold commit_lines in *. cbn [filter].
      destruct (isLineUI l); cbn [negb List.length]; nia.
    + rewrite forallb_app, Hlog1, Hlog2. reflexivity.
Qed.

(** X7. The records [mungeCommits] returns stand for the lines it was given,
    one each and in order, and each is classified by its line: a record is
    of type [ui] exactly when its line starts with a graph mark, and then it
    has no hash, message or pull request; every other record has a hash of 40
    word characters and a message; [ui] and [chore] records stay on the source
    ref; the ref of a [tag] is its message; a [commit] is on the source ref
    or on one of the destination refs, in that ref's colour. *)
Theorem mungeCommits_records (run : Runner) (this this' : This)
    (stdout : list string) (cs : list Commit) (ran ran' : list Command) :
  mungeCommits run this stdout ran = Ok ((cs, this'), ran') ->
  map line cs = stdout /\ Forall (classified this) cs.
Proof.
  intros H. apply mungeCommits_returns in H. tauto.
Qed.

Lemma mungeCommits_records_witness :
  map line
    [ mkCommit line0 "v3.4.2" commit_t (mkPretty (dim_hex "#00bb00") line0)
        (Some "0bb0f8ce075ea1e0f6a7851d80df2bc7d303e756")
        (Some "fix: x [skip ci]") None;
      mkCommit "|\  " "release/minor/v3.6.0" ui_t (mkPretty dim "|\  ")
        None None None ]
  = [line0; "|\  "]
  /\ Forall (classified this0)
       [ mkCommit line0 "v3.4.2" commit_t (mkPretty (dim_hex "#00bb00") line0)
           (Some "0bb0f8ce075ea1e0f6a7851d80df2bc7d303e756")
           (Some "fix: x [skip ci]") None;
         mkCommit "|\  " "release/minor/v3.6.0" ui_t (mkPretty dim "|\  ")
           None None None ].
Proof.
  apply (mungeCommits_records
           (repo "fix: x [skip ci]" ["v3.4.1"; "v3.4.2"]) this0 this0
           [line0; "|\  "] _ []
           [git_log_subject "0bb0f8ce075ea1e0f6a7851d80df2bc7d303e756";
            git_log_grep "v3.4.1" "fix: x \[skip ci\]";
            git_log_grep "v3.4.2" "fix: x \[skip ci\]";
            git_log_grep "v3.5.0" "fix: x \[skip ci\]"]).
  vm_compute. reflexivity.
Defined.





(** ** triageCommits *)

Lemma triageCommits_decisions (open : Opener) (commits : list ParsedCommit) :
  forall (answers : list string) (data : JSMap.t Entry) (opened : list string),
    forallb (fun a => negb (is_open a)) answers = true ->
    triageCommits open commits answers data opened
    = mkTriage (fold_left decide (combine commits answers) data) opened
        (skipn (List.length commits) answers)
        (if Nat.leb (List.length commits) (List.length answers)
         then finished else waiting).
Proof.
  induction commits as [|c commits IH]; intros answers data opened Hans.
  - reflexivity.
  - destruct answers as [|a answers]; [reflexivity|].
    cbn [forallb] in Hans. apply andb_true_iff in Hans.
    destruct Hans as [Ha Hans]. apply negb_true_iff in Ha.
    cbn [triageCommits askCommit]. rewrite Ha.
    cbn [t_outcome t_answers t_data t_opened].
    rewrite IH by assumption. reflexivity.
Qed.

Lemma fold_decide (pairs : list (ParsedCommit * string)) (data : JSMap.t Entry) :
  fold_left decide pairs data
  = fold_left (fun m kv => JSMap.set m (fst kv) (snd kv))
      (map (fun ca => (p_hash (fst ca),
                       mkEntry (p_message (fst ca)) (isYes (snd ca)))) pairs)
      data.
Proof.
  revert data. induction pairs as [|ca pairs IH]; intros data; simpl;
    [reflexivity|]. now rewrite IH.
Qed.

Lemma combine_nth {A B : Type} (l : list A) (l' : list B) (i : nat) (a : A)
    (b : B) :
  nth_error l i = Some a -> nth_error l' i = Some b ->
  In (a, b) (combine l l').
Proof.
  revert l l'. induction i as [|i IH]; intros [|x l] [|y l']; simpl;
    try discriminate.
  - intros [= ->] [= ->]. now left.
  - intros Ha Hb. right. now apply IH.
Qed.

Lemma combine_fst_incl {A B : Type} (l : list A) (l' : list B) (a : A) :
  In a (map fst (combine l l')) -> In a l.
Proof.
  revert l'. induction l as [|x l IH]; intros [|y l']; simpl; try tauto.
  intros [->|H]; [now left|]. right. eapply IH, H.
Qed.

Lemma NoDup_map_combine {A B C : Type} (f : A -> C) (l : list A) (l' : list B) :
  NoDup (map f l) -> NoDup (map (fun ab => f (fst ab)) (combine l l')).
Proof.
  revert l'. induction l as [|x l IH]; intros [|y l']; simpl; try constructor.
  - inversion H; subst. intros Hin. apply H2.
    apply in_map_iff in Hin. destruct Hin as ([a b] & Hf & Hin).
    simpl in Hf. rewrite <- Hf. apply in_map.
    apply (combine_fst_incl l l'). apply in_map_iff. now exists (a, b).
  - inversion H; subst. now apply IH.
Qed.

(** X10. When no answer is [o] or [open], [triageCommits] reads one answer
    per commit and stores under each hash the message of the commit and the
    decision: yes for the empty answer, [Y] and [y], no for any other.  It
    is finished when there are as many answers as commits; when the answers
    run out it waits, and the decisions made until then are in the cache.
    Other keys of the cache keep their entries, and no page is opened. *)
Theorem triageCommits_decides (open : Opener) (commits : list ParsedCommit)
    (answers : list string) (data : JSMap.t Entry) (opened : list string) :
  forallb (fun a => negb (is_open a)) answers = true ->
  NoDup (map p_hash commits) ->
  let t := triageCommits open commits answers data opened in
  (t_outcome t = finished <-> List.length commits <= List.length answers)
  /\ (t_outcome t = waiting <-> List.length answers < List.length commits)
  /\ t_opened t = opened
  /\ (forall i c a,
        nth_error commits i = Some c -> nth_error answers i = Some a ->
        JSMap.get (t_data t) (p_hash c)
        = Some (mkEntry (p_message c) (isYes a)))
  /\ (forall k, ~ In k (map p_hash commits) ->
                JSMap.get (t_data t) k = JSMap.get data k).
Proof.
  intros Hans Hnd t. subst t. rewrite triageCommits_decisions by assumption.
  cbn [t_outcome t_opened t_data].
  assert (Hwf : JSMap.wf
                  (map (fun ca : ParsedCommit * string =>
                          (p_hash (fst ca),
                           mkEntry (p_message (fst ca)) (isYes (snd ca))))
                     (combine commits answers))).
  { unfold JSMap.wf, JSMap.keys. rewrite map_map. cbn [fst].
    now apply NoDup_map_combine. }
  split; [|split; [|split; [reflexivity|split]]].
  - destruct (Nat.leb_spec (List.length commits) (List.length answers));
      split; (discriminate || lia || reflexivity).
  - destruct (Nat.leb_spec (List.length commits) (List.length answers));
      split; (discriminate || lia || reflexivity).
  - intros i c a Hc Ha. rewrite fold_decide, JSMapFacts.get_fold_set.
    rewrite JSMapFacts.get_rev by exact Hwf.
    erewrite JSMapFacts.in_get; [reflexivity|exact Hwf|].
    apply in_map_iff. exists (c, a). split; [reflexivity|].
    eapply combine_nth; eassumption.
  - intros k Hk. rewrite fold_decide, JSMapFacts.get_fold_set.
    rewrite (JSMapFacts.get_not_in (rev _)); [reflexivity|].
    unfold JSMap.keys. rewrite map_rev, <- in_rev, map_map. cbn [fst].
    intros Hin. apply Hk. apply in_map_iff in Hin.
    destruct Hin as ([c a] & <- & Hin). apply in_map.
    apply (combine_fst_incl commits answers). apply in_map_iff.
    now exists (c, a).
Qed.

Lemma triageCommits_decides_witness :
  let t := triageCommits opens asked ["y"; "n"; "later"] cache0 [] in
  (t_outcome t = finished <-> List.length asked <= List.length ["y"; "n"; "later"])
  /\ (t_outcome t = waiting <-> List.length ["y"; "n"; "later"] < List.length asked)
  /\ t_opened t = []
  /\ (forall i c a,
        nth_error asked i = Some c -> nth_error ["y"; "n"; "later"] i = Some a ->
        JSMap.get (t_data t) (p_hash c)
        = Some (mkEntry (p_message c) (isYes a)))
  /\ (forall k, ~ In k (map p_hash asked) ->
                JSMap.get (t_data t) k = JSMap.get cache0 k).
Proof.
  apply (triageCommits_decides opens asked ["y"; "n"; "later"] cache0 []).
  - reflexivity.
  - repeat constructor; simpl; intuition discriminate.
Defined.

(** Scenario E in a session: the empty answer is a yes, [n] is a no. *)
Example triageCommits_scenario_E :
  t_data (triageCommits opens asked [""; "n"] [] [])
  = [ ("0bb0f8ce075ea1e0f6a7851d80df2bc7d303e756", mkEntry "fix: x (#42)" true);
      ("1cc0f8ce075ea1e0f6a7851d80df2bc7d303e756", mkEntry "fix: y" false) ].
Proof. reflexivity. Qed.

(** One commit: the answers [o] and [open] are skipped. *)
Lemma askCommit_skips (open : Opener) (c : ParsedCommit) :
  (forall url, exists out, open url = Ok out) ->
  forall (answers : list string) (data : JSMap.t Entry)
         (opened opened' : list string),
    let t := askCommit open c answers data opened in
    let t' := askCommit open c (filter (fun a => negb (is_open a)) answers)
                data opened' in
    t_data t = t_data t'
    /\ t_outcome t = t_outcome t'
    /\ t_answers t' = filter (fun a => negb (is_open a)) (t_answers t)
    /\ (t_outcome t' = finished \/ t_outcome t' = waiting)
    /\ t_opened t' = opened'.
Proof.
  intros Hopen. induction answers as [|a answers IH]; intros data opened opened'.
  - cbn. repeat split; auto.
  - cbn [askCommit filter]. destruct (is_open a) eqn:Ha; cbn [negb].
    + destruct (p_pr c) as [[|x pr]|]; try apply IH.
      destruct (Hopen (pull_url (String x pr))) as [out ->]. apply IH.
    + cbn [askCommit]. rewrite Ha. cbn. repeat split; auto.
Qed.

(** X11. The answers [o] and [open] decide nothing: when the pages open,
    [triageCommits] leaves the cache it would leave without these answers,
    and finishes or waits as it would without them. *)
Theorem triageCommits_open_skipped (open : Opener)
    (commits : list ParsedCommit) (answers : list string)
    (data : JSMap.t Entry) (opened : list string) :
  (forall url, exists out, open url = Ok out) ->
  let t := triageCommits open commits answers data opened in
  let t' := triageCommits open commits
              (filter (fun a => negb (is_open a)) answers) data opened in
  t_data t = t_data t' /\ t_outcome t = t_outcome t' /\ t_opened t' = opened.
Proof.
  intros Hopen. cbv zeta.
  enough (H : forall answers data opened opened',
             let t := triageCommits open commits answers data opened in
             let t' := triageCommits open commits
                         (filter (fun a => negb (is_open a)) answers)
                         data opened' in
             t_data t = t_data t' /\ t_outcome t = t_outcome t'
             /\ t_opened t' = opened')
    by apply H.
  clear answers data opened.
  induction commits as [|c commits IH]; intros answers data opened opened'.
  - cbn. auto.
  - cbn [triageCommits].
    destruct (askCommit_skips open c Hopen answers data opened opened')
      as (Hd & Ho & Ha & Hfw & Hop).
    cbv zeta in *. rewrite Ho.
    destruct (t_outcome (askCommit open c
                (filter (fun a => negb (is_open a)) answers) data opened'))
      eqn:Hout.
    + rewrite Hd, Ha, Hop. apply IH.
    + rewrite Hout. auto.
    + destruct Hfw; discriminate.
Qed.

Lemma triageCommits_open_skipped_witness :
  let t := triageCommits opens asked ["o"; "y"; "open"; "o"; "n"] cache0 [] in
  let t' := triageCommits opens asked
              (filter (fun a => negb (is_open a)) ["o"; "y"; "open"; "o"; "n"])
              cache0 [] in
  t_data t = t_data t' /\ t_outcome t = t_outcome t' /\ t_opened t' = [].
Proof.
  apply (triageCommits_open_skipped opens asked
           ["o"; "y"; "open"; "o"; "n"] cache0 []).
  intros url. now exists "".
Defined.

Example triageCommits_opens :
  triageCommits opens asked ["o"; "y"; "open"; "o"; "n"] [] []
  = mkTriage
      [ ("0bb0f8ce075ea1e0f6a7851d80df2bc7d303e756", mkEntry "fix: x (#42)" true);
        ("1cc0f8ce075ea1e0f6a7851d80df2bc7d303e756", mkEntry "fix: y" false) ]
      ["https://github.com/redwoodjs/redwood/pull/42"] [] finished.
Proof. reflexivity. Qed.

(** ** The handlers *)

Lemma framed_ret {A : Type} (a : A) : framed (ret a).
Proof. intros ran. unfold ret. now rewrite app_nil_r. Qed.

Lemma framed_throw {A : Type} (e : Error) : framed (@throw A e).
Proof. intros ran. reflexivity. Qed.

Lemma framed_lift {A : Type} (r : Result A) : framed (lift r).
Proof. intros ran. unfold lift. destruct r; [now rewrite app_nil_r|reflexivity]. Qed.

Lemma framed_bind {A B : Type} (m : Shell A) (k : A -> Shell B) :
  framed m -> (forall a, framed (k a)) -> framed (sbind m k).
Proof.
  intros Hm Hk ran. unfold sbind. rewrite (Hm ran).
  destruct (m []) as [[a cmds]|e]; [|reflexivity].
  rewrite (Hk a (ran ++ cmds)), (Hk a cmds).
  destruct (k a []) as [[b cmds']|e]; [|reflexivity].
  now rewrite app_assoc.
Qed.

Lemma framed_forOfS {A B : Type} (body : B -> A -> Shell B) (xs : list A) :
  (forall s x, framed (body s x)) -> forall s, framed (forOfS body xs s).
Proof.
  intros Hbody. induction xs as [|x xs IH]; intros s; cbn [forOfS].
  - apply framed_ret.
  - apply framed_bind; [apply Hbody|]. intros s'. apply IH.
Qed.
Lemma framed_exec (run : Runner) (cmd : Command) : framed (exec run cmd).
Proof. intros ran. unfold exec. destruct (run cmd); reflexivity. Qed.

Lemma framed_mungeLine (run : Runner) (this : This) (l : string) :
  framed (mungeLine run this l).
Proof.
  unfold mungeLine. destruct (isLineUI l); [apply framed_ret|].
  destruct (search HASH l) as [[i h]|]; [|apply framed_throw].
  apply framed_bind.
  - apply framed_bind; [apply framed_exec|intros; apply framed_ret].
  - intros m. destruct (isCommitChore l); [apply framed_ret|].
    destruct (ANNOTATED_TAG_MESSAGE m); [apply framed_ret|].
    apply framed_bind; [|intros; apply framed_ret].
    apply framed_forOfS. intros c r.
    apply framed_bind.
    + apply framed_bind; [apply framed_exec|intros; apply framed_ret].
    + intros []; apply framed_ret.
Qed.

Lemma framed_mungeCommits (run : Runner) (this : This) (stdout : list string) :
  framed (mungeCommits run this stdout).
Proof.
  apply framed_forOfS. intros acc l.
  apply framed_bind; [apply framed_mungeLine|intros; apply framed_ret].
Qed.

(** The records do not depend on the commands run before. *)
Lemma mungeCommits_again (run : Runner) (this : This) (stdout : list string)
    (r : list Commit * This) (ran ran' ran2 : list Command) :
  mungeCommits run this stdout ran = Ok (r, ran') ->
  exists ran2', mungeCommits run this stdout ran2 = Ok (r, ran2').
Proof.
  rewrite (framed_mungeCommits run this stdout ran),
          (framed_mungeCommits run this stdout ran2).
  destruct (mungeCommits run this stdout []) as [[r' cmds]|e]; [|discriminate].
  intros [= -> _]. eauto.
Qed.

(** X12. When the two branches do not differ, the handler of triage-main
    throws a [TypeError]: the list of the one empty line goes to
    [mungeCommits], which finds no hash on that line.  Only the handler of
    triage-next tests for that list. *)
Theorem handler_main_same_branches (run : Runner) (open : Opener)
    (answers : list string) (data : JSMap.t Entry) (ran : list Command)
    (stdout : string) :
  run (git_log
         (sharedGitLogOptions ++ ["--left-only"; "--cherry-pick"; "--boundary"])
         "main" "next") = Ok stdout ->
  trim stdout = "" ->
  handler_main run open answers data ran = Throw TypeError.
Proof.
  intros Hrun Hblank. unfold handler_main. unfold sbind at 1.
  rewrite (getSymmetricDifference_blank _ _ _ _ _ _ Hrun Hblank).
  reflexivity.
Qed.

Lemma handler_main_same_branches_witness :
  handler_main quiet opens [] cache0 [] = Throw TypeError.
Proof.
  apply (handler_main_same_branches quiet opens [] cache0 [] "");
    reflexivity.
Defined.

(** What the handler of triage-next does then. *)
Lemma handler_next_same_branches (run : Runner) (open : Opener)
    (answers : list string) (releaseBranch : string) (data : JSMap.t Entry)
    (ran : list Command) (stdout : string) :
  run (git_log
         (sharedGitLogOptions ++ ["--left-only"; "--cherry-pick"; "--boundary"])
         "next" releaseBranch) = Ok stdout ->
  trim stdout = "" ->
  exists ran',
    handler_next run open answers releaseBranch data ran
    = Ok (same_branches [], ran').
Proof.
  intros Hrun Hblank. unfold handler_next, handler_fetch.
  unfold sbind at 1 2.
  rewrite (getSymmetricDifference_blank _ _ _ _ _ _ Hrun Hblank).
  cbn. unfold ret. eauto.
Qed.

(** The steps of [triage], when it returns. *)
Lemma triage_returns (run : Runner) (open : Opener) (answers : list string)
    (source branch : string) (openPRs : bool) (data : JSMap.t Entry)
    (stdout : list string) (ran ran' : list Command) (s : Session) :
  triage run open answers source branch openPRs data stdout ran = Ok (s, ran') ->
  exists commits this' ran1 purged,
    mungeCommits run (mkThis source (one_ref branch) None) stdout ran
    = Ok ((commits, this'), ran1)
    /\ purgeData data (filter is_release commits) branch = Ok purged
    /\ ((untriaged purged (filter is_release commits) branch = []
         /\ s = nothing_new purged (listing purged branch commits))
        \/ (untriaged purged (filter is_release commits) branch <> []
            /\ exists opened,
                 s = triaged
                       (triageCommits open
                          (triage_input
                             (untriaged purged (filter is_release commits) branch))
                          answers purged opened))).
Proof.
  unfold triage. unfold sbind at 1.
  destruct (mungeCommits run _ stdout ran) as [[[commits this'] ran1]|e];
    [|discriminate].
  cbn [fst]. unfold sbind at 1. unfold lift at 1.
  destruct (purgeData data (filter is_release commits) branch) as [purged|e]
    eqn:Hpurge; [|discriminate].
  intros H. exists commits, this', ran1, purged.
  split; [reflexivity|]. split; [exact Hpurge|].
  destruct (untriaged purged (filter is_release commits) branch) as [|c u].
  - left. unfold ret in H. injection H as <- _. auto.
  - right. split; [discriminate|]. unfold sbind in H.
    destruct openPRs.
    + unfold lift in H. destruct (open cherry_pick_url); [|discriminate].
      cbn in H. unfold ret in H. injection H as <- _. eauto.
    + unfold ret in H. injection H as <- _. eauto.
Qed.

Lemma listing_no_yellow (data : JSMap.t Entry) (branch : string)
    (commits : list Commit) :
  untriaged data (filter is_release commits) branch = [] ->
  Forall (fun l => fst l <> yellow) (listing data branch commits).
Proof.
  intros Hnone. unfold listing. apply Forall_forall. intros l Hin.
  apply in_map_iff in Hin. destruct Hin as (c & <- & Hin).
  unfold listing_line.
  destruct (is_release c) eqn:Hrel; [|discriminate].
  destruct (String.eqb (ref c) branch) eqn:Href; [discriminate|].
  cbn [andb negb].
  destruct (cache_has data (hash c)) eqn:Hhas.
  - cbn [negb]. destruct (cached_yes data (hash c)); discriminate.
  - exfalso. assert (Hc : In c (untriaged data (filter is_release commits) branch)).
    { unfold untriaged. apply filter_In. split; [|now rewrite Href].
      apply filter_In. split; [|now rewrite Hhas].
      apply filter_In. auto. }
    rewrite Hnone in Hc. exact Hc.
Qed.

Lemma listing_lines (data : JSMap.t Entry) (branch : string) (this : This)
    (commits : list Commit) :
  Forall (classified this) commits ->
  map snd (listing data branch commits) = map line commits.
Proof.
  intros Hall. unfold listing. rewrite map_map. apply map_ext_in.
  intros c Hin. rewrite Forall_forall in Hall.
  destruct (Hall c Hin) as (Htext & _). unfold listing_line.
  destruct (is_release c && negb (String.eqb (ref c) branch));
    [|exact Htext].
  destruct (negb (cache_has data (hash c))); [reflexivity|].
  destruct (cached_yes data (hash c)); reflexivity.
Qed.

(** What [purgeData] returns, it leaves as it is. *)
Lemma purgeData_fixed (data purged : JSMap.t Entry) (commits : list Commit)
    (branch : string) :
  purgeData data commits branch = Ok purged ->
  purgeData purged commits branch = Ok purged.
Proof.
  rewrite purgeData_filter. intros [= <-].
  rewrite purgeData_filter. apply f_equal. apply filter_all.
  intros [k e] Hin. apply filter_In in Hin. destruct Hin as [_ Hkeep].
  cbn [fst] in *. apply andb_true_iff in Hkeep. destruct Hkeep as [Hk Hs].
  rewrite Hk. cbn [andb]. apply negb_true_iff in Hs. apply negb_true_iff.
  destruct (settled commits branch (filter _ data) k) eqn:Hs'; [|reflexivity].
  apply existsb_filter_true in Hs'. unfold settled in Hs. congruence.
Qed.

(** X13. When a handler finds nothing to triage, its listing holds the lines
    of the log, one each and in order, and paints none of them yellow: the
    colour of the legend for a commit that is not in the commit data cannot
    appear, since such a commit would have been one to triage. *)
Theorem triage_listing (run : Runner) (open : Opener) (answers : list string)
    (source branch : string) (openPRs : bool) (data purged : JSMap.t Entry)
    (stdout : list string) (ran ran' : list Command)
    (lines : list (Colour * string)) :
  triage run open answers source branch openPRs data stdout ran
  = Ok (nothing_new purged lines, ran') ->
  map snd lines = stdout /\ Forall (fun l => fst l <> yellow) lines.
Proof.
  intros H. apply triage_returns in H.
  destruct H as (commits & this' & ran1 & purged' & Hmunge & Hpurge & Hcase).
  destruct Hcase as [[Hnone [= -> ->]]|[_ [opened [=]]]].
  apply mungeCommits_returns in Hmunge.
  destruct Hmunge as (Hlines & Hall & _).
  split; [erewrite listing_lines; eassumption|].
  now apply listing_no_yellow.
Qed.

Lemma triage_listing_witness :
  map snd [(as_munged dim_blue, line0)] = [line0]
  /\ Forall (fun l => fst l <> yellow) [(as_munged dim_blue, line0)].
Proof.
  apply (triage_listing (repo "fix: x" ["next"]) opens [] "main" "next" true
           [] [] [line0] []
           [git_log_subject "0bb0f8ce075ea1e0f6a7851d80df2bc7d303e756";
            git_log_grep "next" "fix: x"]).
  vm_compute. reflexivity.
Defined.

(** ** A finished session leaves nothing to triage *)

Lemma askCommit_finished (open : Opener) (c : ParsedCommit)
    (answers : list string) (data : JSMap.t Entry) (opened : list string) :
  t_outcome (askCommit open c answers data opened) = finished ->
  exists a,
    t_data (askCommit open c answers data opened)
    = JSMap.set data (p_hash c) (mkEntry (p_message c) (isYes a)).
Proof.
  revert opened. induction answers as [|a answers IH]; intros opened;
    cbn [askCommit]; [discriminate|].
  destruct (is_open a).
  - destruct (p_pr c) as [[|x pr]|]; try apply IH.
    destruct (open (pull_url (String x pr))); [apply IH|discriminate].
  - intros _. now exists a.
Qed.

Lemma triageCommits_finished (open : Opener) (commits : list ParsedCommit) :
  forall (answers : list string) (data : JSMap.t Entry) (opened : list string),
    t_outcome (triageCommits open commits answers data opened) = finished ->
    let data' := t_data (triageCommits open commits answers data opened) in
    (forall k, In k (map p_hash commits) -> JSMap.has data' k = true)
    /\ (forall k, ~ In k (map p_hash commits) ->
                  JSMap.get data' k = JSMap.get data k)
    /\ (JSMap.wf data -> JSMap.wf data').
Proof.
  induction commits as [|c commits IH]; intros answers data opened;
    cbn [triageCommits].
  - intros _. cbn. repeat split; intros; (contradiction || reflexivity || assumption).
  - destruct (t_outcome (askCommit open c answers data opened)) eqn:Hask;
      try (rewrite Hask; discriminate).
    destruct (askCommit_finished _ _ _ _ _ Hask) as [a Ha].
    intros Hfin. destruct (IH _ _ _ Hfin) as (Hhas & Hget & Hwf).
    cbv zeta in *. rewrite Ha in Hhas, Hget, Hwf |- *.
    split; [|split].
    + intros k Hk. destruct (in_dec string_dec k (map p_hash commits)) as [Hin|Hnin].
      * now apply Hhas.
      * destruct Hk as [<-|Hk]; [|contradiction].
        unfold JSMap.has. rewrite Hget by assumption.
        rewrite JSMapFacts.get_set, String.eqb_refl. reflexivity.
    + intros k Hk. cbn [map] in Hk.
      rewrite Hget by (intros Hin; apply Hk; now right).
      rewrite JSMapFacts.get_set.
      destruct (String.eqb_spec (p_hash c) k) as [Heq|_]; [|reflexivity].
      exfalso. apply Hk. now left.
    + intros Hd. apply Hwf. now apply JSMapFacts.wf_set.
Qed.

Lemma find_commit_unique (commits : list Commit) (c : Commit) (k : string) :
  NoDup (map hash commits) -> In c commits -> hash c = Some k ->
  find_commit commits k = Some c.
Proof.
  unfold find_commit. induction commits as [|c' commits IH]; [contradiction|].
  cbn [map find]. intros Hnd Hin Hk. inversion Hnd as [|? ? Hfresh Hnd']; subst.
  destruct Hin as [->|Hin].
  - rewrite Hk. cbn. now rewrite String.eqb_refl.
  - destruct (hash_is (hash c') k) eqn:Hc'; [|now apply IH].
    exfalso. apply Hfresh. unfold hash_is in Hc'.
    destruct (hash c') as [h'|] eqn:Hh'; [|discriminate].
    apply String.eqb_eq in Hc'. subst h'. rewrite <- Hk. now apply in_map.
Qed.

(** Keys that differ still differ after some of their owners are dropped. *)
Lemma NoDup_map_filter {V K : Type} (key : V -> K) (keep : V -> bool)
    (owners : list V) (Hnd : NoDup (map key owners)) :
  NoDup (map key (filter keep owners)).
Proof.
  induction owners as [|x l IH]; cbn [map filter] in *; [constructor|].
  inversion Hnd as [|? ? Hfresh Hnd']; subst.
  destruct (keep x); cbn [map]; [|now apply IH].
  constructor; [|now apply IH]. intros Hin. apply Hfresh.
  apply in_map_iff in Hin. destruct Hin as (y & Hy & Hin).
  apply filter_In in Hin. rewrite <- Hy. apply in_map. tauto.
Qed.

Lemma is_release_commit (c : Commit) : is_release c = true -> type c = commit_t.
Proof. unfold is_release. destruct (type c); (discriminate || reflexivity). Qed.

(** The hashes of the release commits are those of their lines. *)
Lemma release_hashes (this : This) (commits : list Commit) :
  Forall (classified this) commits ->
  NoDup (map line_hash (commit_lines (map line commits))) ->
  NoDup (map hash (filter is_release commits)).
Proof.
  intros Hall Hnd.
  assert (Hsame : map hash (filter is_release commits)
                  = map (fun c => line_hash (line c))
                      (filter is_release
                         (filter (fun c => negb (isLineUI (line c))) commits))).
  { clear Hnd. induction Hall as [|c commits Hc Hall IH]; [reflexivity|].
    cbn [filter]. destruct (is_release c) eqn:Hrel.
    - apply is_release_commit in Hrel.
      destruct Hc as (_ & Hui & _ & Hhash & _).
      destruct (isLineUI (line c)) eqn:Hline.
      + destruct Hui as [_ Hui]. specialize (Hui eq_refl). congruence.
      + cbn [negb filter]. unfold is_release at 2. rewrite Hrel. cbn [map].
        destruct Hhash as (i & h & m & Hs & Hh & _); [congruence|].
        unfold line_hash. rewrite Hs, Hh. cbn. now rewrite IH.
    - destruct (negb (isLineUI (line c))); cbn [filter];
        [rewrite Hrel|]; exact IH. }
  rewrite Hsame. apply NoDup_map_filter.
  unfold commit_lines in Hnd. clear Hsame Hall.
  replace (map (fun c => line_hash (line c))
             (filter (fun c => negb (isLineUI (line c))) commits))
    with (map line_hash
            (filter (fun l => negb (isLineUI l)) (map line commits)));
    [exact Hnd|].
  clear Hnd. induction commits as [|c commits IH]; [reflexivity|].
  cbn [map filter]. destruct (negb (isLineUI (line c))); cbn [map];
    now rewrite IH.
Qed.

Lemma triage_input_in (u : list Commit) (c : Commit) (h m : string) :
  In c u -> hash c = Some h -> message c = Some m ->
  In h (map p_hash (triage_input u)).
Proof.
  intros Hin Hh Hm. apply in_map_iff. exists (mkParsed h m (pr c)).
  split; [reflexivity|]. unfold triage_input. apply in_flat_map.
  exists c. split; [exact Hin|]. rewrite Hh, Hm. now left.
Qed.

Lemma triage_input_from (u : list Commit) (k : string) :
  In k (map p_hash (triage_input u)) ->
  exists c, In c u /\ hash c = Some k.
Proof.
  intros Hin. apply in_map_iff in Hin. destruct Hin as (p & <- & Hin).
  unfold triage_input in Hin. apply in_flat_map in Hin.
  destruct Hin as (c & Hc & Hp). exists c. split; [exact Hc|].
  destruct (hash c) as [h|]; [|contradiction].
  destruct (message c) as [m|]; [|contradiction].
  destruct Hp as [<-|[]]. reflexivity.
Qed.

Lemma untriaged_in (data : JSMap.t Entry) (rc : list Commit) (branch : string)
    (c : Commit) :
  In c (untriaged data rc branch)
  <-> In c rc /\ cache_has data (hash c) = false
      /\ String.eqb (ref c) branch = false.
Proof.
  unfold untriaged. rewrite !filter_In, !negb_true_iff. tauto.
Qed.

(** X14. After a session in which every commit to triage had its answer, a
    second run of the handler over the same log finds nothing to triage and
    leaves the cache as the session left it, whatever would be answered:
    [purgeData] keeps every decision just made.  (The lines of a log carry
    different hashes.) *)
Theorem triage_settles (run : Runner) (open : Opener) (answers : list string)
    (source branch : string) (openPRs : bool) (data : JSMap.t Entry)
    (stdout : list string) (ran ran' : list Command) (t : Triage) :
  JSMap.wf data ->
  NoDup (map line_hash (commit_lines stdout)) ->
  triage run open answers source branch openPRs data stdout ran
  = Ok (triaged t, ran') ->
  t_outcome t = finished ->
  forall (open' : Opener) (answers' : list string) (openPRs' : bool)
         (ran2 : list Command),
  exists lines ran2',
    triage run open' answers' source branch openPRs' (t_data t) stdout ran2
    = Ok (nothing_new (t_data t) lines, ran2').
Proof.
  intros Hwf Hnd H Hfin open' answers' openPRs' ran2.
  apply triage_returns in H.
  destruct H as (commits & this' & ran1 & purged & Hmunge & Hpurge & Hcase).
  destruct Hcase as [[_ [=]]|[_ [opened [= ->]]]].
  set (rc := filter is_release commits) in *.
  set (u := untriaged purged rc branch) in *.
  destruct (triageCommits_finished _ _ _ _ _ Hfin) as (Hhas & Hget & Hwf2).
  cbv zeta in Hhas, Hget, Hwf2.
  set (d2 := t_data (triageCommits open (triage_input u) answers purged opened))
    in *.
  pose proof Hpurge as Hfilter. rewrite purgeData_filter in Hfilter.
  injection Hfilter as Hfilter.
  assert (Hwf1 : JSMap.wf purged)
    by (rewrite <- Hfilter; now apply JSMapFacts.wf_filter).
  specialize (Hwf2 Hwf1).
  destruct (mungeCommits_returns _ _ _ _ _ _ _ Hmunge) as (Hlines & Hall & _).
  assert (Hndh : NoDup (map hash rc)).
  { apply (release_hashes _ _ Hall). now rewrite Hlines. }
  assert (Hfull : forall c, In c rc ->
                    exists h m, hash c = Some h /\ message c = Some m).
  { intros c Hc. apply filter_In in Hc. destruct Hc as [Hc Hrel].
    apply is_release_commit in Hrel. rewrite Forall_forall in Hall.
    destruct (Hall c Hc) as (_ & _ & _ & Hhash & _).
    destruct Hhash as (i & h & m & _ & Hh & _ & Hm & _); [congruence|].
    eauto. }
  (* the second run purges nothing *)
  assert (Hpurge2 : purgeData d2 rc branch = Ok d2).
  { rewrite purgeData_filter. apply f_equal. apply filter_all.
    intros [k e] Hin. cbn [fst].
    rewrite settled_get by exact Hwf2.
    rewrite (JSMapFacts.in_get _ _ _ Hwf2 Hin).
    destruct (in_dec string_dec k (map p_hash (triage_input u))) as [Hk|Hk].
    - apply triage_input_from in Hk. destruct Hk as (c & Hc & Hh).
      apply untriaged_in in Hc. destruct Hc as (Hc & _ & Href).
      pose proof (find_commit_unique _ _ _ Hndh Hc Hh) as Hfind.
      rewrite (find_includes _ _ _ Hfind). unfold landed.
      rewrite Hfind, Href. now rewrite andb_false_r.
    - pose proof (JSMapFacts.in_get _ _ _ Hwf2 Hin) as Hg.
      rewrite (Hget k Hk) in Hg. apply JSMapFacts.get_in in Hg.
      rewrite <- Hfilter in Hg. apply filter_In in Hg.
      destruct Hg as [Hdata Hkeep]. cbn [fst] in Hkeep.
      rewrite settled_get in Hkeep by exact Hwf.
      now rewrite (JSMapFacts.in_get _ _ _ Hwf Hdata) in Hkeep. }
  (* and every release commit is in the cache or on the branch *)
  assert (Hnone : untriaged d2 rc branch = []).
  { unfold untriaged. apply filter_none. intros c Hc.
    apply filter_In in Hc. destruct Hc as [Hc Hnot].
    apply negb_true_iff in Hnot.
    destruct (String.eqb (ref c) branch) eqn:Href; [reflexivity|].
    exfalso. destruct (Hfull c Hc) as (h & m & Hh & Hm).
    rewrite Hh in Hnot. cbn [cache_has] in Hnot.
    assert (Hin : JSMap.has d2 h = true); [|congruence].
    destruct (in_dec string_dec h (map p_hash (triage_input u))) as [Hk|Hk];
      [now apply Hhas|].
    unfold JSMap.has. rewrite (Hget h Hk).
    destruct (JSMap.get purged h) eqn:Hp; [reflexivity|].
    exfalso. apply Hk. apply (triage_input_in u c h m); try assumption.
    apply untriaged_in. rewrite Hh. cbn [cache_has]. unfold JSMap.has.
    rewrite Hp. auto. }
  destruct (mungeCommits_again _ _ _ _ _ _ ran2 Hmunge) as [ran2' Hmunge2].
  exists (listing d2 branch commits), ran2'.
  unfold triage. unfold sbind at 1. rewrite Hmunge2. cbn [fst].
  fold rc. unfold sbind at 1. unfold lift at 1. rewrite Hpurge2, Hnone.
  reflexivity.
Qed.

Lemma triage_settles_witness :
  exists lines ran2',
    triage (two_fixes []) opens [] "main" "next" false
      (t_data
         (mkTriage
            [ ("0bb0f8ce075ea1e0f6a7851d80df2bc7d303e756",
               mkEntry "fix: x (#42)" true);
              ("1cc0f8ce075ea1e0f6a7851d80df2bc7d303e756",
               mkEntry "fix: y" false) ]
            [cherry_pick_url] [] finished))
      [line0; line1] []
    = Ok (nothing_new
            (t_data
               (mkTriage
                  [ ("0bb0f8ce075ea1e0f6a7851d80df2bc7d303e756",
                     mkEntry "fix: x (#42)" true);
                    ("1cc0f8ce075ea1e0f6a7851d80df2bc7d303e756",
                     mkEntry "fix: y" false) ]
                  [cherry_pick_url] [] finished))
            lines, ran2').
Proof.
  apply (fun Hwf Hnd Hrun Hfin =>
           triage_settles (two_fixes []) opens ["y"; "n"] "main" "next" true []
             [line0; line1] []
             [git_log_subject "0bb0f8ce075ea1e0f6a7851d80df2bc7d303e756";
              git_log_grep "next" "fix: x (#42)";
              git_log_subject "1cc0f8ce075ea1e0f6a7851d80df2bc7d303e756";
              git_log_grep "next" "fix: y"]
             (mkTriage
                [ ("0bb0f8ce075ea1e0f6a7851d80df2bc7d303e756",
                   mkEntry "fix: x (#42)" true);
                  ("1cc0f8ce075ea1e0f6a7851d80df2bc7d303e756",
                   mkEntry "fix: y" false) ]
                [cherry_pick_url] [] finished)
             Hwf Hnd Hrun Hfin opens [] false []).
  - constructor.
  - vm_compute. repeat constructor; simpl; intuition discriminate.
  - vm_compute. reflexivity.
  - reflexivity.
Defined.

(** * The validation of branchStrategyCLI.mjs *)

Lemma split_length (s : string) (sep : ascii) :
  List.length (split s sep) = S (occurrences sep s).
Proof.
  induction s as [|c s IH]; simpl; [reflexivity|].
  destruct (Ascii.eqb c sep); simpl.
  - now rewrite IH.
  - destruct (split s sep) as [|piece pieces] eqn:E.
    + now destruct (split_not_nil s sep).
    + simpl in *. exact IH.
Qed.

(** X15 (branchStrategyCLI.mjs, the checks before the commands are parsed):
    when neither git nor [getReleaseBranch] throws, the commands are parsed
    exactly when the current branch, trimmed, is [branch-strategy-triage] and
    the release branch is not empty and holds no line feed; in every other
    case the script leaves with exit code 1. *)
Theorem validate_starts (stdout releaseBranch : string) :
  (validate (Ok stdout) (Ok releaseBranch) = Ok parse_commands
   <-> trim stdout = "branch-strategy-triage"
       /\ releaseBranch <> EmptyString
       /\ occurrences LF releaseBranch = 0)
  /\ (validate (Ok stdout) (Ok releaseBranch) <> Ok parse_commands
      -> exists said, validate (Ok stdout) (Ok releaseBranch)
                      = Ok (exit 1 said)).
Proof.
  unfold validate, bind.
  rewrite split_length.
  destruct (String.eqb_spec (trim stdout) "branch-strategy-triage")
    as [Etrim|Etrim]; cbn [negb].
  2:{ split; [split; [discriminate | intros [H _]; contradiction]|].
      intros _. eexists. reflexivity. }
  destruct (occurrences LF releaseBranch) as [|n] eqn:Eocc.
  2:{ change (Nat.ltb 1 (S (S n))) with true. cbv iota.
      split; [split; [discriminate | intros (_ & _ & H); discriminate]|].
      intros _. eexists. reflexivity. }
  change (Nat.ltb 1 1) with false. cbv iota.
  destruct releaseBranch as [|c rest]; cbn [String.length Nat.eqb].
  - split; [split; [discriminate | intros (_ & H & _); now destruct H]|].
    intros _. eexists. reflexivity.
  - split; [split; [intros _; repeat split; [exact Etrim | discriminate]
                   | reflexivity]|].
    intros H. now destruct H.
Qed.

(** * The plugin babel-plugin-redwood-import-dir *)

Lemma startsWith_app (p rest : string) : startsWith (p ++ rest) p = true.
Proof.
  induction p as [|a p IH]; simpl; [reflexivity|].
  now rewrite Ascii.eqb_refl, IH.
Qed.

Lemma replace_prefix (p rest : string) :
  replace (p ++ rest) p "" = rest.
Proof.
  destruct p as [|a p].
  - simpl. now destruct rest.
  - cbn [replace append]. fold (append p rest).
    change (String a (p ++ rest))%string with (String a p ++ rest)%string.
    rewrite startsWith_app. simpl.
    clear a. induction p as [|b p IH]; simpl; [reflexivity|exact IH].
Qed.

Lemma strip_ext_free (name tail : string) :
  ext_free name tail = true ->
  strip_ext (name ++ tail) = (name ++ strip_ext tail)%string.
Proof.
  induction name as [|c name IH]; intros H; [reflexivity|].
  cbn [ext_free] in H. apply andb_true_iff in H. destruct H as [Hc H].
  apply negb_true_iff in Hc.
  change (String c name ++ tail)%string with (String c (name ++ tail)) in *.
  change (String c name ++ strip_ext tail)%string
    with (String c (name ++ strip_ext tail)).
  cbn [strip_ext]. rewrite Hc. now rewrite IH.
Qed.

Lemma underscore_length (s : string) :
  String.length (underscore s) = String.length s.
Proof. induction s as [|c s IH]; simpl; congruence. Qed.

Lemma underscore_chars (s : string) :
  str_forall (fun c => isAlnum c || Ascii.eqb c "_") (underscore s) = true.
Proof.
  induction s as [|c s IH]; [reflexivity|].
  cbn [underscore str_forall]. rewrite IH, andb_true_r.
  destruct (isAlnum c) eqn:E; [now rewrite E | reflexivity].
Qed.

(** X16 (babel-plugin-redwood-import-dir.ts, [filePathToVarName]): the name
    of the property for a file holds only letters, digits and underscores,
    whatever the path and the static part of the glob are. *)
Theorem filePathToVarName_identifier (static filePath : string) :
  str_forall (fun c => isAlnum c || Ascii.eqb c "_")
    (filePathToVarName static filePath) = true.
Proof. unfold filePathToVarName. apply underscore_chars. Qed.

(** X17 (babel-plugin-redwood-import-dir.ts, [filePathToVarName]): for a
    file under the static part of the glob that ends in [.js] or [.ts], when
    no character of the path in between is followed by [js] or [ts], the name
    of the property is that path in between with every character that is no
    letter and no digit replaced by an underscore. *)
Theorem filePathToVarName_name (static name ext : string) :
  ext = ".js" \/ ext = ".ts" ->
  ext_free name ext = true ->
  filePathToVarName static (static ++ name ++ ext) = underscore name.
Proof.
  intros Hext Hfree. unfold filePathToVarName.
  rewrite replace_prefix, (strip_ext_free _ _ Hfree).
  destruct Hext as [-> | ->]; cbn [strip_ext EXT]; simpl;
    now rewrite str_app_nil_r.
Qed.

Lemma filePathToVarName_name_witness :
  filePathToVarName "../__fixtures__/" "../__fixtures__/nested/d.js" = "nested_d".
Proof.
  apply (filePathToVarName_name "../__fixtures__/" "nested/d" ".js").
  - left. reflexivity.
  - reflexivity.
Defined.

(** The pattern of the extension has its dot unescaped and is not anchored:
    the first character followed by [js] or [ts] is what is removed. *)
Example filePathToVarName_early_match :
  filePathToVarName "src/services/" "src/services/posts/posts.js"
  = "po_posts_js".
Proof. reflexivity. Qed.

Section PluginProperties.

Variable path_parse : string -> string * string.
Variable path_join : string -> string -> string.

Let visit := ImportDeclaration_visitor path_parse path_join.

Lemma assigned_import_files (importName static : string) (files : list string) :
  assigned (flat_map (import_file path_parse importName static) files)
  = map (filePathToVarName static) files.
Proof.
  induction files as [|f files IH]; [reflexivity|].
  cbn [flat_map map]. unfold assigned in *. rewrite flat_map_app, IH.
  unfold import_file at 1. destruct (path_parse f). reflexivity.
Qed.

Lemma in_import_files (importName static : string) (files : list string)
    (s : Statement) :
  In s (flat_map (import_file path_parse importName static) files) ->
  exists f, In f files
    /\ let v := (importName ++ "_" ++ filePathToVarName static f)%string in
       (s = import_namespace v
              (fst (path_parse f) ++ "/" ++ snd (path_parse f))%string
        \/ s = assign_member importName (filePathToVarName static f) v).
Proof.
  intros H. apply in_flat_map in H. destruct H as (f & Hf & Hs).
  exists f. split; [exact Hf|].
  unfold import_file in Hs. destruct (path_parse f) as [d n].
  cbn [fst snd]. destruct Hs as [<- | [<- | []]]; auto.
Qed.

(** X18 (babel-plugin-redwood-import-dir.ts, the visitor of import
    declarations): when the plugin rewrites an import, the type declaration
    it writes is the one generated for the source of the import with one
    line [<property>: any] for each property the new statements assign, in
    their order, and its file is [import-dir-<name>.d.ts] under the path for
    the types. *)
Theorem visitor_types (typesPath : string) (matched : list string)
    (node : ImportDeclaration) (nodes : list Statement)
    (written : option (string * string)) :
  visit typesPath true matched node = Ok (Some (nodes, written)) ->
  exists importName,
    hd_error (specifiers node) = Some importName
    /\ written
       = Some (path_join typesPath
                 ("import-dir-" ++ importName ++ ".d.ts")%string,
               generateTypes (source node)
                 (map (fun property => (property ++ ": any")%string)
                    (assigned nodes))).
Proof.
  unfold visit, ImportDeclaration_visitor.
  destruct (negb (str_includes (source node) "*")); [discriminate|].
  destruct (specifiers node) as [|importName rest]; [discriminate|].
  intros H. injection H as <- <-.
  exists importName. split; [reflexivity|].
  do 2 f_equal.
  change (assigned (let_object importName :: ?l)) with (assigned l).
  rewrite assigned_import_files, map_map. reflexivity.
Qed.

(** X19 (babel-plugin-redwood-import-dir.ts, the visitor of import
    declarations): the statements that replace a rewritten import begin with
    the declaration of the object, and every other one is, for a matched
    file whose path does not include [.test.], either the import of its
    namespace, from the file's directory and name without extension, or the
    assignment of that namespace to the property of the object named after
    the file. *)
Theorem visitor_statements (typesPath : string) (writes : bool)
    (matched : list string) (node : ImportDeclaration)
    (nodes : list Statement) (written : option (string * string)) :
  visit typesPath writes matched node = Ok (Some (nodes, written)) ->
  exists importName rest,
    hd_error (specifiers node) = Some importName
    /\ nodes = let_object importName :: rest
    /\ List.length rest
       = 2 * List.length
               (filter (fun n => negb (str_includes n ".test.")) matched)
    /\ forall s, In s rest ->
         exists f,
           In f matched /\ str_includes f ".test." = false
           /\ let v := (importName ++ "_"
                        ++ filePathToVarName (staticGlob (source node)) f)%string
              in
              (s = import_namespace v
                     (fst (path_parse f) ++ "/" ++ snd (path_parse f))%string
               \/ s = assign_member importName
                        (filePathToVarName (staticGlob (source node)) f) v).
Proof.
  unfold visit, ImportDeclaration_visitor.
  destruct (negb (str_includes (source node) "*")); [discriminate|].
  destruct (specifiers node) as [|importName others]; [discriminate|].
  intros H. injection H as <- _.
  exists importName. eexists. split; [reflexivity|].
  split; [reflexivity|]. split.
  - induction (filter (fun n => negb (str_includes n ".test.")) matched)
      as [|f files IH]; [reflexivity|].
    cbn [flat_map]. rewrite length_app, IH.
    unfold import_file. destruct (path_parse f). simpl. lia.
  - intros s Hs. apply in_import_files in Hs.
    destruct Hs as (f & Hf & Hs). apply filter_In in Hf.
    destruct Hf as [Hf Htest]. apply negb_true_iff in Htest.
    exists f. auto.
Qed.

(** The visitor of import declarations: an import whose source holds no [*] is left as it is and
    nothing is written, whatever its specifiers are, also none. *)
Theorem visitor_untouched (typesPath : string) (writes : bool)
    (matched : list string) (node : ImportDeclaration) :
  str_includes (source node) "*" = false ->
  visit typesPath writes matched node = Ok None.
Proof.
  intros H. unfold visit, ImportDeclaration_visitor. now rewrite H.
Qed.

End PluginProperties.

Lemma validate_starts_witness :
  validate (Ok (String.append "branch-strategy-triage" NL))
    (Ok "release/minor/v3.6.0") = Ok parse_commands.
Proof.
  apply (proj1 (validate_starts (String.append "branch-strategy-triage" NL)
                  "release/minor/v3.6.0")).
  repeat split; [discriminate].
Defined.

Lemma visitor_types_witness :
  exists importName,
    hd_error (specifiers services_import) = Some importName
    /\ Some services_types
       = Some (fixture_join "__fixtures__/import-dir"
                 ("import-dir-" ++ importName ++ ".d.ts")%string,
               generateTypes (source services_import)
                 (map (fun property => (property ++ ": any")%string)
                    (assigned services_statements))).
Proof.
  apply (visitor_types fixture_parse fixture_join "__fixtures__/import-dir"
           fixture_files services_import services_statements
           (Some services_types)).
  vm_compute. reflexivity.
Defined.

Lemma visitor_statements_witness :
  exists importName rest,
    hd_error (specifiers services_import) = Some importName
    /\ services_statements = let_object importName :: rest
    /\ List.length rest
       = 2 * List.length
               (filter (fun n => negb (str_includes n ".test."))
                  fixture_files)
    /\ forall s, In s rest ->
         exists f,
           In f fixture_files /\ str_includes f ".test." = false
           /\ let v := (importName ++ "_"
                        ++ filePathToVarName
                             (staticGlob (source services_import)) f)%string
              in
              (s = import_namespace v
                     (fst (fixture_parse f) ++ "/"
                      ++ snd (fixture_parse f))%string
               \/ s = assign_member importName
                        (filePathToVarName
                           (staticGlob (source services_import)) f) v).
Proof.
  apply (visitor_statements fixture_parse fixture_join
           "__fixtures__/import-dir" false fixture_files services_import
           services_statements None).
  vm_compute. reflexivity.
Defined.

